(** * The chat UI controller of [sample_apps/multi_agent/app.py]

    A shallow embedding of [main], the streamlit page that shows a chat
    transcript, takes one image upload, runs the two asynchronous
    collaborator calls on a private event loop and offers a reset button.

    The page script is stateful code that can raise, so it is written in
    a state-and-exception monad over a [World]: the streamlit session
    state (a dictionary with string keys), the collaborator's private
    state, the event loops created so far, the spinner that is on screen
    and a chronological log of everything the script shows or calls. *)

From Stdlib Require Import Strings.Byte Strings.Ascii.
From stdpp Require Import gmap strings list fin_maps.

Open Scope string_scope.
Open Scope list_scope.

(** ** Python values *)

(** A chat handle is opaque to this layer; a number identifies it. *)
Definition Handle := nat.

(** The value of one entry of a message dictionary. *)
Inductive Atom :=
| ANone
| AStr (s : string).

(** A message is a Python dict with string keys:
    [message["role"]], [message["content"]], ["image_path" in message]. *)
Abbreviation Message := (gmap string Atom).

(** What the session state holds under a key. *)
Inductive Value :=
| VNone
| VHandle (h : Handle)
| VList (l : list Message).

Abbreviation Session := (gmap string Value).

(** Python exceptions that can travel through [main]. *)
Inductive Exn :=
| KeyError (key : string)
| TypeError
| RuntimeError
| CollaboratorError (msg : string)
| RerunException
| StreamlitAPIException
| MediaFileStorageError
| UnidentifiedImageError.

Inductive Result (A : Type) :=
| Ret (a : A)
| Raise (e : Exn).
Arguments Ret {A} a.
Arguments Raise {A} e.

(** Python truthiness of a message entry: [None] and [""] are falsy. *)
Definition truthy (a : Atom) : bool :=
  match a with
  | ANone => false
  | AStr "" => false
  | AStr _ => true
  end.

(** [v is None] *)
Definition is_none (v : Value) : bool :=
  match v with
  | VNone => true
  | _ => false
  end.

(** ** Widgets' inputs *)

Record UploadedFile := {
  name : string;
  getvalue : list byte
}.

(** What the browser sends for one run of the script: the file sitting in
    the upload widget and the buttons pressed, by label. *)
Record Inputs := {
  selected : option UploadedFile;
  clicked : string → bool
}.

(** The text after the last dot of a file name, if there is a dot. *)
Fixpoint extension_from (s : string) (acc : option string) : option string :=
  match s with
  | EmptyString => acc
  | String c s' =>
      if Ascii.eqb c "."%char
      then extension_from s' (Some "")
      else extension_from s' ((λ a, a +:+ String c "") <$> acc)
  end.

Definition extension (s : string) : option string := extension_from s None.

(** [s.lower()], on the letters A to Z. *)
Definition lower_ascii (c : ascii) : ascii :=
  let n := nat_of_ascii c in
  if (65 <=? n)%nat && (n <=? 90)%nat then ascii_of_nat (n + 32) else c.

Fixpoint lower (s : string) : string :=
  match s with
  | EmptyString => EmptyString
  | String c s' => String (lower_ascii c) (lower s')
  end.

(** Modelled from the spec: the upload widget of the page-rendering
    substrate, which this repository calls but does not contain. It hands
    over at most one file, and only one whose extension is among the
    [type] list given to it ("No validation beyond extension filtering
    provided by the upload widget"). The widget does not tell upper from
    lower case: [photo.PNG] passes for [png]. A file it refuses never
    reaches the script. *)
Definition accept (type : list string) (sel : option UploadedFile)
  : option UploadedFile :=
  match sel with
  | Some f =>
      match extension (name f) with
      | Some x => if bool_decide (lower x ∈ type) then Some f else None
      | None => None
      end
  | None => None
  end.

(** ** The log *)

Inductive ImageSrc :=
| ImgPath (p : Atom)
| ImgUpload (f : UploadedFile).

Inductive Event :=
| EvPageConfig (page_title : string)
| EvTitle (s : string)
| EvCaption (s : string)
| EvChatOpen (role : Atom)
| EvChatClose
| EvWrite (content : Atom)
| EvImage (src : ImageSrc) (caption : option string)
| EvFileUploader (label : string) (type : list string)
| EvButton (label : string)
| EvSpinnerShow (text : string)
| EvSpinnerClear
| EvNewLoop (loop : nat)
| EvSetLoop (loop : nat)
| EvRun (loop : nat)
| EvCloseLoop (loop : nat)
| EvInitCall
| EvInitDone (r : Result Handle)
| EvProcessCall (chat : Value) (image_bytes : list byte)
| EvProcessDone (r : Result unit)
| EvClear
| EvRerun.

(** ** The collaborators

    [kernel_setup.initialize_chat] and
    [kernel_setup.process_image_and_get_responses] are imported, not
    defined, by [app.py]. They are taken as they come: each may read and
    write the session state and its own private state, and may raise.
    What [initialize_chat] returns, when it returns, is a chat handle;
    a failure is an exception. A call that never returns is not
    modelled: both are total functions. The log records when they are
    called and how they end, not what they draw on the page.

    The private state [Ext] stands for all that lies outside the page,
    the image files the pipeline leaves behind among it. Whether
    [st.image] can draw an image is decided out there as well: it raises
    for a path that cannot be opened and for uploaded bytes that are no
    image. [image_error e src] is the exception it raises for [src] when
    the outside is in state [e], and [None] when it draws [src]. *)
Record Collaborator := {
  Ext : Type;
  initialize_chat :
    Ext → Session → Result Handle * Ext * Session;
  process_image_and_get_responses :
    Value → list byte → Ext → Session → Result unit * Ext * Session;
  image_error : Ext → ImageSrc → option Exn
}.

Section App.

Variable K : Collaborator.

(** ** The world the script runs in *)

Record World := {
  session_state : Session;
  ext : Ext K;
  trace : list Event;
  (** one flag per event loop created so far: is it closed? *)
  loops : list bool;
  current_loop : option nat;
  spinner : option string
}.

Definition set_session (f : Session → Session) (w : World) : World :=
  {| session_state := f (session_state w); ext := ext w; trace := trace w;
     loops := loops w; current_loop := current_loop w; spinner := spinner w |}.

Definition log (e : Event) (w : World) : World :=
  {| session_state := session_state w; ext := ext w;
     trace := trace w ++ [e];
     loops := loops w; current_loop := current_loop w; spinner := spinner w |}.

Definition set_loops (f : list bool → list bool) (w : World) : World :=
  {| session_state := session_state w; ext := ext w; trace := trace w;
     loops := f (loops w); current_loop := current_loop w;
     spinner := spinner w |}.

Definition set_current_loop (c : option nat) (w : World) : World :=
  {| session_state := session_state w; ext := ext w; trace := trace w;
     loops := loops w; current_loop := c; spinner := spinner w |}.

Definition set_spinner (s : option string) (w : World) : World :=
  {| session_state := session_state w; ext := ext w; trace := trace w;
     loops := loops w; current_loop := current_loop w; spinner := s |}.

Definition set_collab (e : Ext K) (s : Session) (w : World) : World :=
  {| session_state := s; ext := e; trace := trace w;
     loops := loops w; current_loop := current_loop w; spinner := spinner w |}.

(** ** The monad *)

Definition M (A : Type) : Type := World → Result A * World.

#[local] Instance M_ret : MRet M := λ A a w, (Ret a, w).

#[local] Instance M_bind : MBind M := λ A B f m w,
  match m w with
  | (Ret a, w') => f a w'
  | (Raise e, w') => (Raise e, w')
  end.

Definition raise {A} (e : Exn) : M A := λ w, (Raise e, w).

(** [try: body finally: fin]. An exception of [fin] replaces the outcome
    of [body]. *)
Definition try_finally {A} (body : M A) (fin : M unit) : M A := λ w,
  match body w with
  | (r, w1) =>
      match fin w1 with
      | (Ret _, w2) => (r, w2)
      | (Raise e, w2) => (Raise e, w2)
      end
  end.

Definition emit (e : Event) : M unit := λ w, (Ret tt, log e w).

Fixpoint for_each {A} (l : list A) (body : A → M unit) : M unit :=
  match l with
  | [] => mret tt
  | x :: l' => body x;; for_each l' body
  end.

(** ** Session state and message dictionaries *)

(** [key in st.session_state] *)
Definition session_contains (key : string) : M bool := λ w,
  (Ret (bool_decide (is_Some (session_state w !! key))), w).

(** [st.session_state[key]] *)
Definition session_get (key : string) : M Value := λ w,
  match session_state w !! key with
  | Some v => (Ret v, w)
  | None => (Raise (KeyError key), w)
  end.

(** [st.session_state[key] = v] *)
Definition session_set (key : string) (v : Value) : M unit := λ w,
  (Ret tt, set_session (insert key v) w).

(** [st.session_state.clear()] *)
Definition session_clear : M unit := λ w,
  (Ret tt, log EvClear (set_session (λ _, ∅) w)).

(** [message[key]] *)
Definition dict_get (message : Message) (key : string) : M Atom :=
  match message !! key with
  | Some a => mret a
  | None => raise (KeyError key)
  end.

(** [key in message] *)
Definition dict_contains (message : Message) (key : string) : bool :=
  bool_decide (is_Some (message !! key)).

(** The list a [for] statement walks through; [None] and a chat handle
    are not iterable. *)
Definition iterate (v : Value) : M (list Message) :=
  match v with
  | VList l => mret l
  | _ => raise TypeError
  end.

(** ** Streamlit elements *)

(** [with st.chat_message(role): body]. Without an author name the call
    raises, and no block is opened. *)
Definition chat_message {A} (role : Atom) (body : M A) : M A :=
  match role with
  | ANone => raise StreamlitAPIException
  | AStr _ => emit (EvChatOpen role);; try_finally body (emit EvChatClose)
  end.

(** [st.image(src, caption=caption)]: draws the image, or raises when it
    cannot. *)
Definition image (src : ImageSrc) (caption : option string) : M unit := λ w,
  match image_error K (ext w) src with
  | Some x => (Raise x, w)
  | None => (Ret tt, log (EvImage src caption) w)
  end.

(** [with st.spinner(text): body]; the spinner is taken down however the
    body ends. *)
Definition with_spinner {A} (text : string) (body : M A) : M A :=
  (λ w, (Ret tt, log (EvSpinnerShow text) (set_spinner (Some text) w)));;
  try_finally body (λ w, (Ret tt, log EvSpinnerClear (set_spinner None w))).

(** [st.file_uploader(label, type=type)] *)
Definition file_uploader (label : string) (type : list string) (inp : Inputs)
  : M (option UploadedFile) :=
  emit (EvFileUploader label type);; mret (accept type (selected inp)).

(** [st.button(label)] *)
Definition button (label : string) (inp : Inputs) : M bool :=
  emit (EvButton label);; mret (clicked inp label).

(** [st.rerun()] stops the script by raising. *)
Definition rerun : M unit := emit EvRerun;; raise RerunException.

(** ** asyncio *)

(** [asyncio.new_event_loop()]: a new loop object, open. *)
Definition new_event_loop : M nat := λ w,
  let n := length (loops w) in
  (Ret n, log (EvNewLoop n) (set_loops (λ l, l ++ [false]) w)).

(** [asyncio.set_event_loop(loop)] *)
Definition set_event_loop (loop : nat) : M unit := λ w,
  (Ret tt, log (EvSetLoop loop) (set_current_loop (Some loop) w)).

(** [loop.run_until_complete(coro)]: a closed loop refuses to run. *)
Definition run_until_complete {A} (loop : nat) (coro : M A) : M A := λ w,
  match loops w !! loop with
  | Some false => coro (log (EvRun loop) w)
  | _ => (Raise RuntimeError, w)
  end.

(** [loop.close()] *)
Definition close (loop : nat) : M unit := λ w,
  (Ret tt, log (EvCloseLoop loop) (set_loops (insert loop true) w)).

(** The coroutine [initialize_chat()]. *)
Definition call_initialize_chat : M Handle := λ w,
  let '(r, e, s) := initialize_chat K (ext w) (session_state w) in
  (r, log (EvInitDone r) (set_collab e s (log EvInitCall w))).

(** The coroutine [process_image_and_get_responses(chat, image_bytes)]. *)
Definition call_process (chat : Value) (image_bytes : list byte) : M unit :=
  λ w,
  let '(r, e, s) :=
    process_image_and_get_responses K chat image_bytes (ext w)
      (session_state w) in
  (r, log (EvProcessDone r)
        (set_collab e s (log (EvProcessCall chat image_bytes) w))).

(** ** [main], block by block *)

(** Lines 11-14. *)
Definition page_header : M unit :=
  emit (EvPageConfig "Image Analysis & Shopping Assistant");;
  emit (EvTitle "Image Analysis & Shopping Assistant");;
  emit (EvCaption "Upload an image to find where to buy similar items!").

(** Lines 17-20. *)
Definition init_session_state : M unit :=
  has_messages ← session_contains "messages";
  (if negb has_messages then session_set "messages" (VList [])
   else mret tt);;
  has_chat ← session_contains "chat";
  (if negb has_chat then session_set "chat" VNone else mret tt).

(** Lines 24-27, the body of the loop. *)
Definition display_message (message : Message) : M unit :=
  role ← dict_get message "role";
  chat_message role (
    content ← dict_get message "content";
    emit (EvWrite content);;
    has_image ←
      (if dict_contains message "image_path"
       then p ← dict_get message "image_path"; mret (truthy p)
       else mret false);
    if has_image : bool
    then p ← dict_get message "image_path"; image (ImgPath p) None
    else mret tt).

(** Lines 23-27. *)
Definition display_chat_history : M unit :=
  messages ← session_get "messages";
  l ← iterate messages;
  for_each l display_message.

(** Lines 38-56: what the analyze button sets off. *)
Definition analyze (uploaded_file : UploadedFile) : M unit :=
  with_spinner "Processing image..." (
    let image_bytes := getvalue uploaded_file in
    loop ← new_event_loop;
    set_event_loop loop;;
    try_finally (
      chat ← session_get "chat";
      (if is_none chat
       then h ← run_until_complete loop call_initialize_chat;
            session_set "chat" (VHandle h)
       else mret tt);;
      chat ← session_get "chat";
      run_until_complete loop (call_process chat image_bytes))
    (close loop)).

(** Lines 30-56. *)
Definition upload_section (inp : Inputs) : M unit :=
  uploaded_file ←
    file_uploader "Choose an image..." ["jpg"; "jpeg"; "png"] inp;
  match uploaded_file with
  | Some f =>
      image (ImgUpload f) (Some "Uploaded Image");;
      pressed ← button "Analyze and Find Products" inp;
      if pressed : bool then analyze f else mret tt
  | None => mret tt
  end.

(** Lines 59-61. *)
Definition reset_section (inp : Inputs) : M unit :=
  pressed ← button "Start Over" inp;
  if pressed : bool then session_clear;; rerun else mret tt.

(** Lines 11-56: everything above the reset button. *)
Definition before_reset (inp : Inputs) : M unit :=
  page_header;;
  init_session_state;;
  display_chat_history;;
  upload_section inp.

Definition main (inp : Inputs) : M unit :=
  before_reset inp;;
  reset_section inp.

(** A session is the script run once per interaction, on the world the
    previous run left behind, whatever way that run ended. *)
Fixpoint session (inps : list Inputs) (w : World) : World :=
  match inps with
  | [] => w
  | inp :: rest => session rest (main inp w).2
  end.

(** ** Reading the log *)

(** [extend d w]: the world [w] with the events [d] logged after what it
    has already seen. *)
Definition extend (d : list Event) (w : World) : World :=
  {| session_state := session_state w; ext := ext w;
     trace := trace w ++ d;
     loops := loops w; current_loop := current_loop w; spinner := spinner w |}.

(** The events logged between the world [w] and a later world [w']. *)
Definition new_events (w w' : World) : list Event :=
  drop (length (trace w)) (trace w').

(** Events that drawing the transcript produces. *)
Definition display_event (e : Event) : Prop :=
  match e with
  | EvChatOpen _ | EvChatClose | EvWrite _ | EvImage (ImgPath _) _ => True
  | _ => False
  end.

(** Events that only the analyze action produces. *)
Definition analyze_event (e : Event) : Prop :=
  match e with
  | EvSpinnerShow _ | EvSpinnerClear
  | EvNewLoop _ | EvSetLoop _ | EvRun _ | EvCloseLoop _
  | EvInitCall | EvInitDone _ | EvProcessCall _ _ | EvProcessDone _ => True
  | _ => False
  end.

(** Lines 17-20 as a function on the dictionary. *)
Definition default (key : string) (v : Value) (s : Session) : Session :=
  match s !! key with
  | Some _ => s
  | None => <[key := v]> s
  end.

Definition with_defaults (s : Session) : Session :=
  default "chat" VNone (default "messages" (VList []) s).

Definition header : list Event :=
  [EvPageConfig "Image Analysis & Shopping Assistant";
   EvTitle "Image Analysis & Shopping Assistant";
   EvCaption "Upload an image to find where to buy similar items!"].

(** The world once lines 11-20 have run. *)
Definition started (w : World) : World :=
  set_session with_defaults (extend header w).

(** ** The paths through the script

    Each block of [main] is a function; the relations below list its
    paths, one constructor per path, with the world each path ends in.
    The [_run] lemmas further down show that the functions take these
    paths and no other. *)

(** The world an analyze action leaves: [mid] is what happened inside
    [try], [e] and [s] are the collaborator's state and the session state
    at the end. The loop of this action is the one numbered
    [length (loops w)]; it is closed, and no spinner is left. *)
Definition analyzed (w : World) (mid : list Event) (e : Ext K) (s : Session)
  : World :=
  let n := length (loops w) in
  {| session_state := s; ext := e;
     trace := trace w ++
       [EvSpinnerShow "Processing image..."; EvNewLoop n; EvSetLoop n] ++
       mid ++ [EvCloseLoop n; EvSpinnerClear];
     loops := loops w ++ [true];
     current_loop := Some n;
     spinner := None |}.

Inductive AnalyzeRun (f : UploadedFile) (w : World)
  : Result unit → World → Prop :=
| analyze_no_key :
    session_state w !! "chat" = None →
    AnalyzeRun f w (Raise (KeyError "chat"))
      (analyzed w [] (ext w) (session_state w))
| analyze_init_raises x e s :
    session_state w !! "chat" = Some VNone →
    initialize_chat K (ext w) (session_state w) = (Raise x, e, s) →
    AnalyzeRun f w (Raise x)
      (analyzed w
         [EvRun (length (loops w)); EvInitCall; EvInitDone (Raise x)] e s)
| analyze_init_returns h e1 s1 r e2 s2 :
    session_state w !! "chat" = Some VNone →
    initialize_chat K (ext w) (session_state w) = (Ret h, e1, s1) →
    process_image_and_get_responses K (VHandle h) (getvalue f) e1
      (<["chat" := VHandle h]> s1) = (r, e2, s2) →
    AnalyzeRun f w r
      (analyzed w
         [EvRun (length (loops w)); EvInitCall; EvInitDone (Ret h);
          EvRun (length (loops w));
          EvProcessCall (VHandle h) (getvalue f); EvProcessDone r] e2 s2)
| analyze_reuses c r e2 s2 :
    session_state w !! "chat" = Some c →
    is_none c = false →
    process_image_and_get_responses K c (getvalue f) (ext w)
      (session_state w) = (r, e2, s2) →
    AnalyzeRun f w r
      (analyzed w
         [EvRun (length (loops w));
          EvProcessCall c (getvalue f); EvProcessDone r] e2 s2).

Definition upload_types : list string := ["jpg"; "jpeg"; "png"].

Inductive UploadRun (inp : Inputs) (w : World)
  : Result unit → World → Prop :=
| upload_none :
    accept upload_types (selected inp) = None →
    UploadRun inp w (Ret tt)
      (extend [EvFileUploader "Choose an image..." upload_types] w)
| upload_preview_raises f x :
    accept upload_types (selected inp) = Some f →
    image_error K (ext w) (ImgUpload f) = Some x →
    UploadRun inp w (Raise x)
      (extend [EvFileUploader "Choose an image..." upload_types] w)
| upload_idle f :
    accept upload_types (selected inp) = Some f →
    image_error K (ext w) (ImgUpload f) = None →
    clicked inp "Analyze and Find Products" = false →
    UploadRun inp w (Ret tt)
      (extend [EvFileUploader "Choose an image..." upload_types;
               EvImage (ImgUpload f) (Some "Uploaded Image");
               EvButton "Analyze and Find Products"] w)
| upload_analyze f r w' :
    accept upload_types (selected inp) = Some f →
    image_error K (ext w) (ImgUpload f) = None →
    clicked inp "Analyze and Find Products" = true →
    AnalyzeRun f
      (extend [EvFileUploader "Choose an image..." upload_types;
               EvImage (ImgUpload f) (Some "Uploaded Image");
               EvButton "Analyze and Find Products"] w) r w' →
    UploadRun inp w r w'.

Inductive ResetRun (inp : Inputs) (w : World)
  : Result unit → World → Prop :=
| reset_idle :
    clicked inp "Start Over" = false →
    ResetRun inp w (Ret tt) (extend [EvButton "Start Over"] w)
| reset_fires :
    clicked inp "Start Over" = true →
    ResetRun inp w (Raise RerunException)
      (extend [EvButton "Start Over"; EvClear; EvRerun]
         (set_session (λ _, ∅) w)).

Inductive MainRun (inp : Inputs) (w : World)
  : Result unit → World → Prop :=
| main_display_raises d x :
    display_chat_history (started w) = (Raise x, extend d (started w)) →
    Forall display_event d →
    MainRun inp w (Raise x) (extend d (started w))
| main_upload_raises d x w' :
    display_chat_history (started w) = (Ret tt, extend d (started w)) →
    Forall display_event d →
    UploadRun inp (extend d (started w)) (Raise x) w' →
    MainRun inp w (Raise x) w'
| main_reaches_reset d w1 r w' :
    display_chat_history (started w) = (Ret tt, extend d (started w)) →
    Forall display_event d →
    UploadRun inp (extend d (started w)) (Ret tt) w1 →
    ResetRun inp w1 r w' →
    MainRun inp w r w'.

End App.

Arguments session_state {K} w.
Arguments ext {K} w.
Arguments trace {K} w.
Arguments loops {K} w.
Arguments current_loop {K} w.
Arguments spinner {K} w.
Arguments extend {K} d w.
Arguments new_events {K} w w'.
Arguments log {K} e w.
Arguments started {K} w.
Arguments analyzed {K} w mid e s.
Arguments AnalyzeRun {K} f w _ _.
Arguments UploadRun {K} inp w _ _.
Arguments ResetRun {K} inp w _ _.
Arguments MainRun {K} inp w _ _.

(** * What the claims speak about *)

(** A collaborator whose [process_image_and_get_responses] leaves the
    ["chat"] entry of the session state as it found it. *)
Definition process_keeps_chat (K : Collaborator) : Prop :=
  ∀ chat image_bytes e s,
    (process_image_and_get_responses K chat image_bytes e s).2 !! "chat"
    = s !! "chat".

(** A collaborator whose [initialize_chat] does not write the session
    state. *)
Definition init_keeps_session (K : Collaborator) : Prop :=
  ∀ e s, (initialize_chat K e s).2 = s.


(** Collaborators that leave the ["messages"] entry alone. *)
Definition keeps_messages (K : Collaborator) : Prop :=
  (∀ e s, (initialize_chat K e s).2 !! "messages" = s !! "messages") ∧
  (∀ chat image_bytes e s,
     (process_image_and_get_responses K chat image_bytes e s).2
       !! "messages" = s !! "messages").

(** An event that is compatible with "the chat [chat] is in use": no
    initialization happens, and the pipeline is given [chat]. *)
Definition reuses (chat : Value) (ev : Event) : Prop :=
  match ev with
  | EvInitCall | EvInitDone _ => False
  | EvProcessCall c _ => c = chat
  | _ => True
  end.

(** A log in which, once [initialize_chat] has returned a handle,
    everything that follows reuses that handle. *)
Fixpoint lazily_initialized (d : list Event) : Prop :=
  match d with
  | [] => True
  | EvInitDone (Ret h) :: d' => Forall (reuses (VHandle h)) d'
  | _ :: d' => lazily_initialized d'
  end.

(** Inside an analyze action: the only loop that runs anything is
    [loop], and no loop is created, installed or closed. *)
Definition runs_on (loop : nat) (ev : Event) : Prop :=
  match ev with
  | EvNewLoop _ | EvSetLoop _ | EvCloseLoop _ => False
  | EvRun l => l = loop
  | _ => True
  end.

(** The loops a log creates, in the order it creates them. *)
Definition created (d : list Event) : list nat :=
  omap (λ ev, match ev with EvNewLoop n => Some n | _ => None end) d.

(** What the spec says the transcript shows for one message: the content
    under the role, then the image if the message has one. An
    ["image_path"] entry that holds [None] or the empty string is no
    image. *)
Definition shown (m : Message) : list Event :=
  match m !! "role", m !! "content" with
  | Some role, Some content =>
      [EvChatOpen role; EvWrite content] ++
      match m !! "image_path" with
      | Some p => if truthy p then [EvImage (ImgPath p) None] else []
      | None => []
      end ++
      [EvChatClose]
  | _, _ => []
  end.

(** What the spec says the transcript shows: every message, in order. *)
Definition transcript (l : list Message) : list Event :=
  l ≫= shown.

(** The role a log entry opens a chat block for, if it opens one. *)
Definition opened (ev : Event) : option Atom :=
  match ev with
  | EvChatOpen role => Some role
  | _ => None
  end.

(** A message as the data model has it: a role that is a string, a
    content, and, if it has an image path, one that [st.image] can draw
    with the outside in state [e]. *)
Definition well_formed (K : Collaborator) (e : Ext K) (m : Message) : Prop :=
  (∃ role, m !! "role" = Some (AStr role)) ∧
  is_Some (m !! "content") ∧
  ∀ p, m !! "image_path" = Some p → truthy p = true →
       image_error K e (ImgPath p) = None.

(** * More to say about the script *)

(** A message that lacks one of the two entries the transcript reads. *)
Definition malformed (m : Message) : Prop :=
  m !! "role" = None ∨ m !! "content" = None.

(** What drawing the message [m] ends in when it cannot be drawn, with
    the outside in state [e]: an entry is missing, the role is [None],
    or the image cannot be drawn. *)
Definition draw_error (K : Collaborator) (e : Ext K) (m : Message)
  : option Exn :=
  match m !! "role" with
  | None => Some (KeyError "role")
  | Some ANone => Some StreamlitAPIException
  | Some (AStr _) =>
      match m !! "content" with
      | None => Some (KeyError "content")
      | Some _ =>
          match m !! "image_path" with
          | Some p => if truthy p then image_error K e (ImgPath p) else None
          | None => None
          end
      end
  end.

(** What the log shows of a message that cannot be drawn: nothing when
    the failure comes before the chat block is opened; otherwise the
    block, opened and closed again, around the content if that was
    written. *)
Definition shown_before_error (m : Message) : list Event :=
  match m !! "role" with
  | Some (AStr role) =>
      [EvChatOpen (AStr role)] ++
      match m !! "content" with
      | Some content => [EvWrite content]
      | None => []
      end ++
      [EvChatClose]
  | _ => []
  end.

(** The chat blocks a log closes. *)
Definition closed_block (ev : Event) : option unit :=
  match ev with
  | EvChatClose => Some tt
  | _ => None
  end.

(** The pipeline calls of a log: the chat and the bytes of each. *)
Definition pipeline_calls (d : list Event) : list (Value * list byte) :=
  omap (λ ev, match ev with
              | EvProcessCall chat image_bytes => Some (chat, image_bytes)
              | _ => None
              end) d.

(** The calls of [initialize_chat] in a log. *)
Definition init_calls (d : list Event) : list unit :=
  omap (λ ev, match ev with EvInitCall => Some tt | _ => None end) d.

(** Events of the widgets below the transcript. *)
Definition widget_event (ev : Event) : Prop :=
  match ev with
  | EvFileUploader _ _ | EvButton _ | EvImage (ImgUpload _) _ => True
  | _ => False
  end.

(** * Concrete collaborators and inputs

    Small collaborators to run the script on: one that works, one whose
    [process_image_and_get_responses] fails after it has written to the
    transcript, one whose pipeline fails before it has written anything,
    one whose [initialize_chat] fails. Their private state counts the
    calls they have served. For all of them the only image file is
    [uploads/lamp.png], and the only bytes that are an image are those
    of a PNG of one pixel. *)
Module Demo.

Definition message (role content : string) : Message :=
  <["role" := AStr role]> (<["content" := AStr content]> ∅).

(** The bytes of a PNG image of one black pixel. *)
Definition pixel : list byte :=
  [x89; x50; x4e; x47; x0d; x0a; x1a; x0a; x00; x00; x00; x0d; x49; x48;
   x44; x52; x00; x00; x00; x01; x00; x00; x00; x01; x08; x00; x00; x00;
   x00; x3a; x7e; x9b; x55; x00; x00; x00; x0a; x49; x44; x41; x54; x78;
   xda; x63; x60; x00; x00; x00; x02; x00; x01; xe5; x27; xde; xfc; x00;
   x00; x00; x00; x49; x45; x4e; x44; xae; x42; x60; x82]%byte.

Fixpoint same_bytes (a b : list byte) : bool :=
  match a, b with
  | [], [] => true
  | x :: a', y :: b' => Byte.eqb x y && same_bytes a' b'
  | _, _ => false
  end.

(** An outside in which the only image file is [uploads/lamp.png] and
    the only bytes that are an image are those of [pixel]. *)
Definition one_image {E : Type} (e : E) (src : ImageSrc) : option Exn :=
  match src with
  | ImgPath p =>
      match p with
      | AStr "uploads/lamp.png" => None
      | _ => Some MediaFileStorageError
      end
  | ImgUpload f =>
      if same_bytes (getvalue f) pixel then None
      else Some UnidentifiedImageError
  end.

(** [st.session_state["messages"].append(m)] *)
Definition append_message (m : Message) (s : Session) : Session :=
  match s !! "messages" with
  | Some (VList l) => <["messages" := VList (l ++ [m])]> s
  | _ => s
  end.

(** The collaborator of the spec's scenario: [initialize_chat] resolves
    to a handle, the pipeline appends one assistant message. *)
Definition steady : Collaborator := {|
  Ext := nat;
  initialize_chat := λ e s, (Ret 1, S e, s);
  process_image_and_get_responses := λ chat image_bytes e s,
    (Ret tt, S e,
     append_message (message "assistant" "Found 3 matching items") s);
  image_error := one_image
|}.

(** A collaborator whose pipeline writes the user's message to the
    transcript, then fails. *)
Definition failing_process : Collaborator := {|
  Ext := nat;
  initialize_chat := λ e s, (Ret 1, S e, s);
  process_image_and_get_responses := λ chat image_bytes e s,
    (Raise (CollaboratorError "analysis failed"), S e,
     append_message (message "user" "Uploaded an image") s);
  image_error := one_image
|}.


(** A collaborator that cannot set up a chat. *)
Definition failing_init : Collaborator := {|
  Ext := nat;
  initialize_chat := λ e s,
    (Raise (CollaboratorError "no credentials"), S e, s);
  process_image_and_get_responses := λ chat image_bytes e s,
    (Ret tt, S e, s);
  image_error := one_image
|}.

(** A session that has just begun: nothing stored, nothing logged. *)
Definition blank (K : Collaborator) (e : Ext K) : World K :=
  {| session_state := ∅; ext := e; trace := []; loops := [];
     current_loop := None; spinner := None |}.

(** A session whose page has been drawn once: lines 17-20 have run. *)
Definition rendered (K : Collaborator) (e : Ext K) : World K :=
  {| session_state := with_defaults ∅; ext := e; trace := []; loops := [];
     current_loop := None; spinner := None |}.

(** A session in the middle of a conversation: two messages, the second
    with a picture, and a chat handle. *)
Definition pictured : Message :=
  <["image_path" := AStr "uploads/lamp.png"]>
    (message "assistant" "Found 3 matching items").

Definition chatting (K : Collaborator) (e : Ext K) : World K :=
  {| session_state :=
       <["chat" := VHandle 1]>
         (<["messages" :=
              VList [message "user" "Where can I buy this lamp?"; pictured]]>
            ∅);
     ext := e; trace := []; loops := [];
     current_loop := None; spinner := None |}.

Definition photo : UploadedFile :=
  {| name := "photo.png"; getvalue := pixel |}.

(** The same image under a name in capitals. *)
Definition capitals : UploadedFile :=
  {| name := "PHOTO.PNG"; getvalue := pixel |}.

(** A file with the name of an image and the first four bytes of one. *)
Definition corrupt : UploadedFile :=
  {| name := "corrupt.png"; getvalue := [x89; x50; x4e; x47]%byte |}.

Definition notes : UploadedFile :=
  {| name := "notes.txt"; getvalue := [x68; x69]%byte |}.

(** The user has [file] in the upload widget and presses [label]. *)
Definition press (label : string) (file : option UploadedFile) : Inputs :=
  {| selected := file; clicked := String.eqb label |}.

(** The user has [file] in the upload widget and presses nothing. *)
Definition idle (file : option UploadedFile) : Inputs :=
  {| selected := file; clicked := λ _, false |}.

(** A session whose transcript the collaborator has left in a bad
    state: the second message has no content. *)
Definition broken (K : Collaborator) (e : Ext K) : World K :=
  {| session_state :=
       <["chat" := VHandle 1]>
         (<["messages" :=
              VList [message "user" "Where can I buy this lamp?";
                     <["role" := AStr "assistant"]> ∅;
                     pictured]]>
            ∅);
     ext := e; trace := []; loops := [];
     current_loop := None; spinner := None |}.

(** A session whose second message points to an image file that is no
    longer there. *)
Definition stale (K : Collaborator) (e : Ext K) : World K :=
  {| session_state :=
       <["chat" := VHandle 1]>
         (<["messages" :=
              VList [message "user" "Where can I buy this lamp?";
                     <["image_path" := AStr "uploads/gone.png"]>
                       (message "assistant" "Found 3 matching items")]]>
            ∅);
     ext := e; trace := []; loops := [];
     current_loop := None; spinner := None |}.

End Demo.

(** * Proofs *)

Section Proofs.
Context (K : Collaborator).
Implicit Types (w : World K) (s : gmap string Value).

(** ** Worlds *)

Lemma close_last (l : list bool) :
  <[length l := true]> (l ++ [false]) = l ++ [true].
Proof. rewrite insert_app_r_alt by lia. by rewrite Nat.sub_diag. Qed.

(** Unfold the script down to functions on worlds. *)
Ltac unfold_script :=
  unfold main, before_reset, reset_section, upload_section, analyze,
    display_chat_history, init_session_state, page_header,
    with_spinner, chat_message, image, file_uploader, button, rerun,
    new_event_loop, set_event_loop, run_until_complete, close,
    call_initialize_chat, call_process,
    session_contains, session_get, session_set, session_clear, iterate,
    try_finally, emit, raise, mbind, M_bind, mret, M_ret.

(** Reduce record projections and updates, and nothing else: an update
    mentions its argument once per field, so unfolding a chain of
    updates blindly is exponential. *)
Tactic Notation "calm" "in" "*" :=
  cbn [fst snd session_state ext trace loops current_loop spinner
       log set_session set_loops set_current_loop set_spinner set_collab
       extend analyzed started header negb is_none] in *.

Tactic Notation "calm" "in" hyp(H) :=
  cbn [fst snd session_state ext trace loops current_loop spinner
       log set_session set_loops set_current_loop set_spinner set_collab
       extend analyzed started header negb is_none] in H.

Ltac calm :=
  cbn [fst snd session_state ext trace loops current_loop spinner
       log set_session set_loops set_current_loop set_spinner set_collab
       extend analyzed started header negb is_none].

Lemma lookup_new_loop (l : list bool) :
  (l ++ [false]) !! length l = Some false.
Proof. by apply list_lookup_middle. Qed.

Lemma world_eq w1 w2 :
  session_state w1 = session_state w2 → ext w1 = ext w2 →
  trace w1 = trace w2 → loops w1 = loops w2 →
  current_loop w1 = current_loop w2 → spinner w1 = spinner w2 →
  w1 = w2.
Proof. destruct w1, w2; simpl; by intros -> -> -> -> -> ->. Qed.

Ltac same_world :=
  apply world_eq; calm; rewrite ?close_last, <- ?app_assoc; reflexivity.

Lemma extend_nil w : extend [] w = w.
Proof. apply world_eq; calm; by rewrite ?app_nil_r. Qed.

Lemma extend_extend d1 d2 w :
  extend d2 (extend d1 w) = extend (d1 ++ d2) w.
Proof. apply world_eq; calm; by rewrite ?app_assoc. Qed.

(** ** The script takes the listed paths *)

Lemma ResetRun_to inp w r w1 w2 :
  w2 = w1 → ResetRun inp w r w1 → ResetRun inp w r w2.
Proof. by intros ->. Qed.

Lemma AnalyzeRun_to f w r w1 w2 :
  w2 = w1 → AnalyzeRun f w r w1 → AnalyzeRun f w r w2.
Proof. by intros ->. Qed.

Lemma reset_section_run inp w :
  ResetRun inp w (reset_section K inp w).1 (reset_section K inp w).2.
Proof.
  unfold_script. calm.
  destruct (clicked inp "Start Over") eqn:E; calm;
    (eapply ResetRun_to; [| constructor; exact E]); same_world.
Qed.

Lemma analyze_run f w :
  AnalyzeRun f w (analyze K f w).1 (analyze K f w).2.
Proof.
  unfold_script. calm.
  destruct (session_state w !! "chat") as [c|] eqn:Hc; calm.
  2:{ eapply AnalyzeRun_to; [| by constructor]. same_world. }
  destruct c as [|h0|l0]; calm.
  - rewrite !lookup_new_loop. calm.
    destruct (initialize_chat K (ext w) (session_state w))
      as [[[h|x] e1] s1] eqn:Hi; calm.
    + rewrite lookup_insert_eq. rewrite !lookup_new_loop. calm.
      destruct (process_image_and_get_responses K (VHandle h) (getvalue f)
                  e1 (<["chat":=VHandle h]> s1)) as [[r e2] s2] eqn:Hp; calm.
      eapply AnalyzeRun_to; [| eapply analyze_init_returns; eassumption].
      destruct r; same_world.
    + eapply AnalyzeRun_to; [| eapply analyze_init_raises; eassumption].
      same_world.
  - rewrite Hc. rewrite !lookup_new_loop. calm.
    destruct (process_image_and_get_responses K _ (getvalue f) (ext w)
                (session_state w)) as [[r e2] s2] eqn:Hp; calm.
    eapply AnalyzeRun_to;
      [| eapply analyze_reuses; [eassumption|reflexivity|eassumption]].
    destruct r; same_world.
  - rewrite Hc. rewrite !lookup_new_loop. calm.
    destruct (process_image_and_get_responses K _ (getvalue f) (ext w)
                (session_state w)) as [[r e2] s2] eqn:Hp; calm.
    eapply AnalyzeRun_to;
      [| eapply analyze_reuses; [eassumption|reflexivity|eassumption]].
    destruct r; same_world.
Qed.

Lemma UploadRun_to inp w r w1 w2 :
  w2 = w1 → UploadRun inp w r w1 → UploadRun inp w r w2.
Proof. by intros ->. Qed.

Lemma display_message_frame m w :
  ∃ d, (display_message K m w).2 = extend d w ∧ Forall display_event d.
Proof.
  unfold display_message, dict_get, dict_contains. unfold_script.
  destruct (m !! "role") as [[|r]|]; calm.
  1,3: exists []; by rewrite extend_nil.
  destruct (m !! "content") as [c|]; calm.
  2:{ eexists [_; _]. split; [same_world | by repeat constructor]. }
  destruct (m !! "image_path") as [p|] eqn:Hp; calm.
  - rewrite bool_decide_true by eauto.
    destruct (truthy p); calm.
    + destruct (image_error K (ext w) (ImgPath p)); calm.
      * eexists [_; _; _]. split; [same_world | by repeat constructor].
      * eexists [_; _; _; _]. split; [same_world | by repeat constructor].
    + eexists [_; _; _]. split; [same_world | by repeat constructor].
  - rewrite bool_decide_false by (by intros []). calm.
    eexists [_; _; _]. split; [same_world | by repeat constructor].
Qed.

Lemma for_each_display_frame l w :
  ∃ d, (for_each K l (display_message K) w).2 = extend d w ∧
       Forall display_event d.
Proof.
  revert w. induction l as [|m l IH]; intros w; cbn [for_each].
  - exists []. by rewrite extend_nil.
  - unfold mbind, M_bind.
    destruct (display_message_frame m w) as (d1 & H1 & F1).
    destruct (display_message K m w) as [[[]|x] w1]; calm; cbn [snd] in H1;
      subst w1.
    + destruct (IH (extend d1 w)) as (d2 & H2 & F2).
      exists (d1 ++ d2). rewrite H2, extend_extend. split; [done|].
      by apply Forall_app.
    + by exists d1.
Qed.

Lemma display_chat_history_frame w :
  ∃ d, (display_chat_history K w).2 = extend d w ∧ Forall display_event d.
Proof.
  unfold_script.
  destruct (session_state w !! "messages") as [[| |l]|]; calm;
    try (exists []; by rewrite extend_nil).
  apply for_each_display_frame.
Qed.

Lemma upload_section_run inp w :
  UploadRun inp w (upload_section K inp w).1 (upload_section K inp w).2.
Proof.
  unfold upload_section, file_uploader, button, image, emit, mbind, M_bind,
    mret, M_ret.
  calm. fold upload_types.
  destruct (accept upload_types (selected inp)) as [f|] eqn:Ha; calm.
  2:{ by constructor. }
  destruct (image_error K (ext w) (ImgUpload f)) as [x|] eqn:Hi; calm.
  { by eapply upload_preview_raises. }
  destruct (clicked inp "Analyze and Find Products") eqn:Hc; calm.
  - eapply upload_analyze; [done..|].
    match goal with |- context [analyze K f ?w1] =>
      replace w1 with
        (extend [EvFileUploader "Choose an image..." upload_types;
                   EvImage (ImgUpload f) (Some "Uploaded Image");
                   EvButton "Analyze and Find Products"] w)
        by same_world
    end.
    apply analyze_run.
  - eapply UploadRun_to; [| by eapply upload_idle]. same_world.
Qed.

Lemma init_session_state_eq w :
  init_session_state K w = (Ret tt, set_session K with_defaults w).
Proof.
  unfold_script. calm.
  destruct (session_state w !! "messages") as [m|] eqn:Hm;
    [rewrite bool_decide_true by eauto
    |rewrite bool_decide_false by (by intros [])]; calm;
    rewrite ?lookup_insert_ne by done;
    (destruct (session_state w !! "chat") as [c|] eqn:Hc;
     [rewrite bool_decide_true by eauto
     |rewrite bool_decide_false by (by intros [])]); calm;
    f_equal; apply world_eq; calm; try reflexivity;
    unfold with_defaults, default;
    rewrite Hm, ?lookup_insert_ne, Hc by done; reflexivity.
Qed.

Lemma main_run inp w :
  MainRun inp w (main K inp w).1 (main K inp w).2.
Proof.
  destruct (main K inp w) as [r w'] eqn:E. cbn [fst snd].
  revert E. unfold main, before_reset, page_header, emit, mbind, M_bind.
  rewrite init_session_state_eq.
  replace (set_session K with_defaults _) with (started w) by same_world.
  destruct (display_chat_history_frame (started w)) as (d & Hd & Fd).
  destruct (display_chat_history K (started w)) as [[[]|x] w1] eqn:Ed;
    cbn [snd] in Hd; subst w1.
  - pose proof (upload_section_run inp (extend d (started w))) as Hu.
    destruct (upload_section K inp (extend d (started w))) as [[[]|x] w2];
      cbn [fst snd] in Hu.
    + pose proof (reset_section_run inp w2) as Hr. intros E.
      rewrite E in Hr. by eapply main_reaches_reset.
    + intros [= <- <-]. by eapply main_upload_raises.
  - intros [= <- <-]. by eapply main_display_raises.
Qed.

(** ** Reading the log of a run *)

Lemma new_events_extend d w : new_events w (extend d w) = d.
Proof. unfold new_events. calm. by rewrite drop_app_length. Qed.

Lemma new_events_app w w' d :
  trace w' = trace w ++ d → new_events w w' = d.
Proof. unfold new_events. intros ->. by rewrite drop_app_length. Qed.

(** After [inversion] on the paths of a run: compute what the run
    logged. *)
Ltac events :=
  repeat match goal with
  | H : context [new_events ?w ?w'] |- _ =>
      erewrite (new_events_app w w') in H
        by (calm; rewrite <- ?app_assoc; reflexivity)
  | |- context [new_events ?w ?w'] =>
      erewrite (new_events_app w w')
        by (calm; rewrite <- ?app_assoc; reflexivity)
  end.

Ltac paths H := inversion H; subst; clear H.

Ltac all_paths :=
  repeat match goal with
  | H : MainRun _ _ _ _ |- _ => paths H
  | H : UploadRun _ _ _ _ |- _ => paths H
  | H : AnalyzeRun _ _ _ _ |- _ => paths H
  | H : ResetRun _ _ _ _ |- _ => paths H
  end.

(** Split a membership in a computed log into its cases. *)
Ltac members H :=
  lazymatch type of H with
  | _ ∈ header ++ _ => unfold header in H; members H
  | _ ∈ _ ++ _ =>
      apply elem_of_app in H; destruct H as [H|H]; members H
  | _ ∈ _ :: _ =>
      apply elem_of_cons in H; destruct H as [H|H]; [|members H]
  | _ ∈ [] => apply elem_of_nil in H; destruct H
  | _ ∈ ?d =>
      try match goal with
      | F : Forall ?P d |- _ => apply (proj1 (Forall_forall P d) F) in H
      end
  | _ => idtac
  end.

(** Find an event in a computed log. *)
Ltac found :=
  lazymatch goal with
  | |- _ ∈ header ++ _ => unfold header; found
  | |- _ ∈ _ ++ _ => apply elem_of_app; first [left; found | right; found]
  | |- _ ∈ _ :: _ =>
      first [apply list_elem_of_here | apply list_elem_of_further; found]
  end.

Lemma display_not_analyze ev : display_event ev → analyze_event ev → False.
Proof. by destruct ev. Qed.

(** Settle a case that [members] has produced: the event is a known
    one, or it is one that drawing the transcript produced. *)
Ltac kinds :=
  try match goal with
  | H : display_event ?e, H' : analyze_event ?e |- _ =>
      destruct (display_not_analyze e H H')
  end;
  repeat match goal with
  | H : display_event (_ _) |- _ => cbn [display_event] in H
  | H : display_event (_ _ _) |- _ => cbn [display_event] in H
  | H : display_event EvInitCall |- _ => cbn [display_event] in H
  | H : analyze_event _ |- _ => cbn [analyze_event] in H
  end;
  try contradiction; try discriminate;
  simplify_eq; try contradiction; try done.

(** ** The analyze action *)

(** C7: whatever belongs to the analyze pipeline -- the analyze button,
    the spinner, the event loop, the two collaborator calls -- shows up
    in the log of a run of [main] only if the upload widget returned a
    file in that run; and a call of [process_image_and_get_responses]
    then carries the bytes of that very file. *)
Theorem analyze_only_with_upload inp w ev :
  ev ∈ new_events w (main K inp w).2 →
  analyze_event ev ∨ ev = EvButton "Analyze and Find Products" →
  ∃ f, accept upload_types (selected inp) = Some f ∧
       ∀ chat image_bytes,
         ev = EvProcessCall chat image_bytes → image_bytes = getvalue f.
Proof.
  intros Hev Hkind.
  pose proof (main_run inp w) as Hm.
  destruct (main K inp w) as [r w']. cbn [fst snd] in *.
  all_paths; events.
  all: match goal with
    | H : accept _ _ = Some ?f |- _ =>
        exists f; split; [exact H|]; intros chat image_bytes ->;
        members Hev; kinds
    | _ => exfalso; destruct Hkind; members Hev; kinds
    end.
Qed.

(** C6: when the log of a run of [main] shows that [initialize_chat] or
    [process_image_and_get_responses] raised [x], the run itself ends by
    raising that same [x]: nothing in [main] catches it or turns it into
    something else. *)
Theorem collaborator_errors_propagate inp w x :
  EvInitDone (Raise x) ∈ new_events w (main K inp w).2 ∨
  EvProcessDone (Raise x) ∈ new_events w (main K inp w).2 →
  (main K inp w).1 = Raise x.
Proof.
  intros Hev.
  pose proof (main_run inp w) as Hm.
  destruct (main K inp w) as [r w']. cbn [fst snd] in *.
  all_paths; events. all: destruct Hev as [Hev|Hev]; members Hev; kinds.
Qed.

Lemma with_defaults_chat s v :
  s !! "chat" = Some v → with_defaults s !! "chat" = Some v.
Proof.
  intros H. unfold with_defaults, default.
  destruct (s !! "messages") eqn:Hm; rewrite ?lookup_insert_ne by done;
    rewrite H; cbv beta iota; rewrite ?lookup_insert_ne by done; exact H.
Qed.

(** C10: if the log of a run of [main] shows that [initialize_chat]
    raised, then [main] stored nothing: the session state at the end of
    the run is the very one the failing call handed back. For a
    collaborator whose [initialize_chat] does not itself write the
    session state, that is the state lines 17-20 set up, its ["chat"]
    entry is still [None], and the next run that gets as far as the
    spinner calls [initialize_chat] again. *)
Theorem failed_init_leaves_chat_unset inp w x :
  init_keeps_session K →
  EvInitDone (Raise x) ∈ new_events w (main K inp w).2 →
  let w' := (main K inp w).2 in
  initialize_chat K (ext w) (with_defaults (session_state w)) =
    (Raise x, ext w', session_state w') ∧
  session_state w' = with_defaults (session_state w) ∧
  session_state w' !! "chat" = Some VNone ∧
  ∀ inp' text,
    EvSpinnerShow text ∈ new_events w' (main K inp' w').2 →
    EvInitCall ∈ new_events w' (main K inp' w').2.
Proof.
  intros Hkeep Hev.
  pose proof (main_run inp w) as Hm.
  destruct (main K inp w) as [r w']. cbn [fst snd] in *.
  assert (initialize_chat K (ext w) (with_defaults (session_state w)) =
            (Raise x, ext w', session_state w') ∧
          session_state w' = with_defaults (session_state w) ∧
          session_state w' !! "chat" = Some VNone) as (Hi & Hs & Hc).
  { all_paths; events; members Hev; kinds. calm in *.
    split; [done|].
    match goal with
    | H : initialize_chat K ?e ?s = _ |- _ =>
        pose proof (Hkeep e s) as Hk; rewrite H in Hk; cbn [snd] in Hk;
        subst
    end.
    done. }
  split; [done|]. split; [done|]. split; [done|]. clear Hm Hev Hs Hi.
  intros inp' text Hshow.
  pose proof (main_run inp' w') as Hm'.
  destruct (main K inp' w') as [r' w'']. cbn [fst snd] in *.
  apply with_defaults_chat in Hc.
  all_paths; events; try (exfalso; members Hshow; kinds; fail);
    calm in *; simplify_eq; found.
Qed.

(** C3: an analyze action that finds no chat logs exactly one of two
    sequences. Either [initialize_chat] raises, and the pipeline is not
    called at all; or it returns a handle [h], and only after that is
    [process_image_and_get_responses] called, with [VHandle h]. In both
    the collaborator calls are over before the loop is closed and the
    spinner cleared, which come last. Whatever the session holds, the
    pipeline is never given [None], and no spinner is left on screen. *)
Theorem init_completes_before_process f w :
  let n := length (loops w) in
  let r := (analyze K f w).1 in
  let w' := (analyze K f w).2 in
  (session_state w !! "chat" = Some VNone →
   (∃ x, r = Raise x ∧
      new_events w w' =
        [EvSpinnerShow "Processing image..."; EvNewLoop n; EvSetLoop n;
         EvRun n; EvInitCall; EvInitDone (Raise x);
         EvCloseLoop n; EvSpinnerClear]) ∨
   (∃ h,
      new_events w w' =
        [EvSpinnerShow "Processing image..."; EvNewLoop n; EvSetLoop n;
         EvRun n; EvInitCall; EvInitDone (Ret h);
         EvRun n; EvProcessCall (VHandle h) (getvalue f); EvProcessDone r;
         EvCloseLoop n; EvSpinnerClear])) ∧
  (∀ chat image_bytes,
     EvProcessCall chat image_bytes ∈ new_events w w' → chat ≠ VNone) ∧
  spinner w' = None.
Proof.
  intros n r w'. subst n r w'.
  pose proof (analyze_run f w) as Hr.
  destruct (analyze K f w) as [r w']. cbn [fst snd] in *.
  split; [intros Hnone|split].
  - paths Hr; events; simplify_eq; [left|right]; eauto.
  - intros chat image_bytes Hev. paths Hr; events; members Hev; kinds.
    by intros ->.
  - by paths Hr.
Qed.

(** ** Sessions *)

Lemma main_grows inp w :
  trace (main K inp w).2 = trace w ++ new_events w (main K inp w).2.
Proof.
  pose proof (main_run inp w) as Hm.
  destruct (main K inp w) as [r w']. cbn [fst snd] in *.
  all_paths; events; calm; rewrite <- ?app_assoc; reflexivity.
Qed.

Lemma new_events_nil w : new_events w w = [].
Proof. unfold new_events. by rewrite drop_all. Qed.

Lemma new_events_trans w w1 w2 :
  trace w1 = trace w ++ new_events w w1 →
  trace w2 = trace w1 ++ new_events w1 w2 →
  trace w2 = trace w ++ new_events w w2 ∧
  new_events w w2 = new_events w w1 ++ new_events w1 w2.
Proof.
  intros H1 H2.
  assert (trace w2 = trace w ++ new_events w w1 ++ new_events w1 w2) as H.
  { by rewrite H2, H1 at 1; rewrite <- app_assoc. }
  rewrite (new_events_app _ _ _ H). by split.
Qed.

Lemma session_grows inps w :
  trace (session K inps w) = trace w ++ new_events w (session K inps w).
Proof.
  revert w. induction inps as [|inp inps IH]; intros w; cbn [session].
  - by rewrite new_events_nil, app_nil_r.
  - by destruct (new_events_trans w _ _ (main_grows inp w) (IH _)).
Qed.

Lemma session_cons inp inps w :
  new_events w (session K (inp :: inps) w) =
  new_events w (main K inp w).2 ++
  new_events (main K inp w).2 (session K inps (main K inp w).2).
Proof.
  cbn [session].
  by destruct (new_events_trans w _ _ (main_grows inp w)
                 (session_grows inps _)).
Qed.

Lemma created_display d : Forall display_event d → created d = [].
Proof.
  induction 1 as [|ev d Hev _ IH]; [done|].
  unfold created in *. cbn. rewrite IH. by destruct ev.
Qed.

Lemma created_app d1 d2 : created (d1 ++ d2) = created d1 ++ created d2.
Proof. apply omap_app. Qed.

Lemma main_loops inp w :
  (created (new_events w (main K inp w).2) = [] ∧
   loops (main K inp w).2 = loops w) ∨
  (created (new_events w (main K inp w).2) = [length (loops w)] ∧
   loops (main K inp w).2 = loops w ++ [true]).
Proof.
  pose proof (main_run inp w) as Hm.
  destruct (main K inp w) as [r w']. cbn [fst snd] in *.
  all_paths; events; calm;
    match goal with
    | |- context [EvNewLoop] => right
    | _ => left
    end;
    (split; [|reflexivity]);
    rewrite !created_app, (created_display d) by done; reflexivity.
Qed.

Lemma session_loops inps w :
  let d := new_events w (session K inps w) in
  created d = seq (length (loops w)) (length (created d)) ∧
  loops (session K inps w) = loops w ++ replicate (length (created d)) true.
Proof.
  revert w. induction inps as [|inp inps IH]; intros w.
  - cbn [session]. rewrite new_events_nil. cbn. by rewrite app_nil_r.
  - cbv zeta. rewrite session_cons. cbn [session].
    specialize (IH (main K inp w).2). cbv zeta in IH.
    destruct IH as [IHc IHl].
    rewrite created_app, IHl.
    destruct (main_loops inp w) as [[Hc Hl]|[Hc Hl]]; rewrite Hc, Hl.
    + cbn [app]. by rewrite <- Hl.
    + rewrite <- app_assoc. cbn [app length]. split; [|done].
      rewrite IHc at 1. rewrite Hl, length_app. cbn [length seq].
      by rewrite Nat.add_1_r.
Qed.

(** C4: every analyze action, however it ends, creates one event loop
    that did not exist before, runs its coroutines on that loop and on
    no other, and closes it before the spinner is cleared; the loops of
    earlier actions are not touched. Over a whole session the loops
    created are numbered one after the other, so no two actions share a
    loop; at the end of the session each of them is closed, and the
    loops that were there before are as they were. *)
Theorem fresh_loop_per_action f w :
  let n := length (loops w) in
  let w' := (analyze K f w).2 in
  loops w !! n = None ∧
  loops w' = loops w ++ [true] ∧
  (∃ mid,
     new_events w w' =
       [EvSpinnerShow "Processing image..."; EvNewLoop n; EvSetLoop n] ++
       mid ++ [EvCloseLoop n; EvSpinnerClear] ∧
     Forall (runs_on n) mid) ∧
  ∀ inps w0,
    let d := new_events w0 (session K inps w0) in
    created d = seq (length (loops w0)) (length (created d)) ∧
    loops (session K inps w0) =
      loops w0 ++ replicate (length (created d)) true.
Proof.
  intros n w'. subst n w'.
  pose proof (analyze_run f w) as Hr.
  destruct (analyze K f w) as [r w']. cbn [fst snd] in *.
  split; [|split; [|split]].
  - by apply lookup_ge_None.
  - by paths Hr.
  - paths Hr; events; eexists; (split; [reflexivity|]);
      repeat constructor.
  - apply session_loops.
Qed.

(** ** The transcript *)

Lemma display_message_shown m w :
  well_formed K (ext w) m →
  display_message K m w = (Ret tt, extend (shown m) w).
Proof.
  intros ([role Hr] & [content Hc] & Hi).
  unfold display_message, dict_get, dict_contains, shown. unfold_script.
  rewrite Hr, Hc. calm.
  destruct (m !! "image_path") as [p|] eqn:Hp; calm.
  - rewrite bool_decide_true by eauto.
    destruct (truthy p) eqn:Ht; calm.
    + rewrite (Hi p) by done. calm. f_equal; same_world.
    + f_equal; same_world.
  - rewrite bool_decide_false by (by intros []). calm.
    f_equal; same_world.
Qed.

Lemma for_each_transcript l w :
  Forall (well_formed K (ext w)) l →
  for_each K l (display_message K) w = (Ret tt, extend (transcript l) w).
Proof.
  intros Hl. revert w Hl.
  induction l as [|m l IH]; intros w Hl; cbn [for_each].
  - by rewrite extend_nil.
  - inversion Hl as [|? ? Hm Hl']; subst.
    unfold mbind at 1, M_bind. rewrite display_message_shown by done.
    rewrite IH by done. by rewrite extend_extend.
Qed.

Lemma opened_transcript e l :
  Forall (well_formed K e) l →
  omap opened (transcript l) = omap (λ m : Message, m !! "role") l.
Proof.
  induction 1 as [|m l ([role Hr] & [content Hc] & _) _ IH]; [done|].
  unfold transcript in *. cbn [mbind list_bind omap list_omap].
  rewrite omap_app, IH. unfold shown. rewrite Hr, Hc.
  destruct (m !! "image_path") as [p|]; [destruct (truthy p)|]; done.
Qed.

Lemma display_chat_history_shown w l :
  session_state w !! "messages" = Some (VList l) →
  Forall (well_formed K (ext w)) l →
  display_chat_history K w = (Ret tt, extend (transcript l) w).
Proof.
  intros Hm Hl.
  unfold display_chat_history, session_get, iterate, mbind, M_bind.
  rewrite Hm. unfold mret, M_ret. by apply for_each_transcript.
Qed.

(** C9: when the session holds the messages [l], each as the data model
    has it -- a role that is a string, a content and, if there is an
    image path, one that [st.image] can draw -- drawing the transcript
    succeeds and logs exactly [transcript l]: for every message, in the
    order of the list, a chat block under its role with its content and,
    when the message has an image path, the image. One block is opened
    per message, none is skipped, and the world is otherwise as it was:
    the session state, and with it the list of messages, is untouched. *)
Theorem transcript_rendered w l :
  session_state w !! "messages" = Some (VList l) →
  Forall (well_formed K (ext w)) l →
  display_chat_history K w = (Ret tt, extend (transcript l) w) ∧
  omap opened (transcript l) = omap (λ m : Message, m !! "role") l ∧
  session_state (display_chat_history K w).2 = session_state w.
Proof.
  intros Hm Hl.
  pose proof (display_chat_history_shown w l Hm Hl) as Hd.
  split; [done|]. split; [by eapply opened_transcript|].
  by rewrite Hd.
Qed.

(** ** The upload *)

Lemma upload_section_quiet inp w :
  accept upload_types (selected inp) = None →
  upload_section K inp w =
    (Ret tt, extend [EvFileUploader "Choose an image..." upload_types] w).
Proof.
  intros Ha.
  pose proof (upload_section_run inp w) as Hu.
  destruct (upload_section K inp w) as [r w']. cbn [fst snd] in *.
  by paths Hu; simplify_eq.
Qed.

Lemma accept_extension f x :
  extension (name f) = Some x → lower x ∈ upload_types →
  accept upload_types (Some f) = Some f.
Proof. intros Hx Hin. unfold accept. by rewrite Hx, bool_decide_true. Qed.

(** C8, as amended: the upload block asks the widget once, for the types
    jpg, jpeg and png, and at most one file comes back. A selected file
    whose extension is one of these, in small or capital letters, is
    handed to [st.image]. If its bytes are an image, it is previewed
    right after the widget, followed by the analyze button. If they are
    not, [st.image] raises and the block ends there: no preview, no
    analyze button, no pipeline. No preview other than that of the
    selected file is possible. A selected file with another extension,
    or with none, leaves nothing in the log but the widget itself. *)
Theorem upload_takes_one_image inp w :
  let r := (upload_section K inp w).1 in
  let d := new_events w (upload_section K inp w).2 in
  (∃ rest,
     d = EvFileUploader "Choose an image..." ["jpg"; "jpeg"; "png"] :: rest) ∧
  (∀ f x,
     selected inp = Some f → extension (name f) = Some x →
     lower x ∈ ["jpg"; "jpeg"; "png"] →
     image_error K (ext w) (ImgUpload f) = None →
     ∃ rest,
       d = EvFileUploader "Choose an image..." ["jpg"; "jpeg"; "png"] ::
           EvImage (ImgUpload f) (Some "Uploaded Image") ::
           EvButton "Analyze and Find Products" :: rest ∧
       Forall analyze_event rest) ∧
  (∀ f x e,
     selected inp = Some f → extension (name f) = Some x →
     lower x ∈ ["jpg"; "jpeg"; "png"] →
     image_error K (ext w) (ImgUpload f) = Some e →
     r = Raise e ∧
     d = [EvFileUploader "Choose an image..." ["jpg"; "jpeg"; "png"]]) ∧
  (∀ g caption,
     EvImage (ImgUpload g) caption ∈ d →
     selected inp = Some g ∧ image_error K (ext w) (ImgUpload g) = None) ∧
  (∀ f,
     selected inp = Some f →
     (∀ x, extension (name f) = Some x →
           lower x ∉ ["jpg"; "jpeg"; "png"]) →
     r = Ret tt ∧
     d = [EvFileUploader "Choose an image..." ["jpg"; "jpeg"; "png"]]).
Proof.
  intros r d. subst r d. fold upload_types.
  pose proof (upload_section_run inp w) as Hu.
  pose proof (upload_section_quiet inp w) as Hq.
  destruct (upload_section K inp w) as [r w']. cbn [fst snd] in *.
  split; [|split; [|split; [|split]]].
  - all_paths; events; eauto.
  - intros f x Hsel Hext Hx Hdraw.
    assert (accept upload_types (selected inp) = Some f) as Ha
      by (rewrite Hsel; by eapply accept_extension).
    all_paths; events; simplify_eq; eexists; (split; [reflexivity|]);
      repeat constructor.
  - intros f x e Hsel Hext Hx Hdraw.
    assert (accept upload_types (selected inp) = Some f) as Ha
      by (rewrite Hsel; by eapply accept_extension).
    all_paths; events; by simplify_eq.
  - intros g caption Hg.
    assert (accept upload_types (selected inp) = Some g ∧
            image_error K (ext w) (ImgUpload g) = None) as [Ha Hdraw].
    { all_paths; events; members Hg; kinds. }
    split; [|done].
    unfold accept in Ha. destruct (selected inp) as [f|]; [|done].
    destruct (extension (name f)); [|done]. by case_bool_decide; simplify_eq.
  - intros f Hsel Hbad.
    assert (accept upload_types (selected inp) = None) as Ha.
    { unfold accept. rewrite Hsel.
      destruct (extension (name f)) as [x|] eqn:Hext; [|done].
      rewrite bool_decide_false; [done|]. by apply Hbad. }
    injection (Hq Ha) as -> ->. split; [done|]. by events.
Qed.

(** ** Reset *)

Lemma with_defaults_empty :
  with_defaults ∅ = <["chat" := VNone]> (<["messages" := VList []]> ∅).
Proof.
  unfold with_defaults, default.
  rewrite lookup_empty, lookup_insert_ne by done. by rewrite lookup_empty.
Qed.

(** C2: whenever a run of [main] gets as far as the reset button and the
    button was pressed, whatever the session held, the run empties the
    session state, logs nothing after that but the request to run again,
    and ends in [RerunException]. In the run that follows, lines 17-20
    find no key, so they store the empty list under ["messages"] and
    [None] under ["chat"]; the transcript has nothing to draw; and no
    chat block is logged in that run. *)
Theorem reset_clears_session inp w :
  (before_reset K inp w).1 = Ret tt →
  clicked inp "Start Over" = true →
  let w' := (main K inp w).2 in
  (main K inp w).1 = Raise RerunException ∧
  session_state w' = ∅ ∧
  new_events (before_reset K inp w).2 w' =
    [EvButton "Start Over"; EvClear; EvRerun] ∧
  let w1 := (init_session_state K w').2 in
  session_state w1 !! "messages" = Some (VList []) ∧
  session_state w1 !! "chat" = Some VNone ∧
  display_chat_history K w1 = (Ret tt, w1) ∧
  ∀ inp' role, EvChatOpen role ∉ new_events w' (main K inp' w').2.
Proof.
  intros Hb Hc.
  assert (main K inp w = reset_section K inp (before_reset K inp w).2)
    as ->.
  { unfold main, mbind, M_bind.
    by destruct (before_reset K inp w) as [[[]|x] w0]. }
  generalize (before_reset K inp w).2. clear Hb. intros w0.
  pose proof (reset_section_run inp w0) as Hr.
  destruct (reset_section K inp w0) as [r w']. cbn [fst snd] in *.
  paths Hr; [congruence|].
  split; [done|]. split; [done|]. split; [by events|].
  set (w' := extend _ _).
  assert (session_state (started w') !! "messages" = Some (VList []) ∧
          session_state (started w') !! "chat" = Some VNone)
    as [Hm Hchat].
  { subst w'. calm. rewrite with_defaults_empty.
    rewrite lookup_insert_eq, lookup_insert_ne by done.
    by rewrite lookup_insert_eq. }
  assert (session_state w' = ∅) as Hempty by done.
  clearbody w'.
  cbv zeta. rewrite init_session_state_eq. cbn [snd].
  split; [exact Hm|]. split; [exact Hchat|].
  split.
  - unfold display_chat_history, session_get, iterate, mbind, M_bind.
    calm in Hm. calm. by rewrite Hm.
  - intros inp' role Hev.
    pose proof (display_chat_history_shown (started w') [] Hm
                  (List.Forall_nil _)) as Hd.
    change (transcript []) with (@nil Event) in Hd.
    pose proof (main_run inp' w') as Hrun.
    destruct (main K inp' w') as [r' w'']. cbn [fst snd] in *.
    all_paths;
      match goal with
      | H : display_chat_history K _ = (_, extend ?d _) |- _ =>
          rewrite Hd in H;
          first
            [ discriminate H
            | injection H as H; apply app_inv_head in H; subst d ]
      end;
      events; members Hev; kinds.
Qed.

(** ** A failing pipeline *)


(** ** Lazy initialization of the chat *)

Lemma display_reuses chat d :
  Forall display_event d → Forall (reuses chat) d.
Proof. intros H. eapply Forall_impl; [exact H|]. by intros []. Qed.

Lemma lazily_initialized_display d l :
  Forall display_event d → lazily_initialized l →
  lazily_initialized (d ++ l).
Proof.
  intros Hd Hl. induction Hd as [|ev d Hev _ IH]; [done|].
  by destruct ev.
Qed.

Lemma lazily_initialized_display_only d :
  Forall display_event d → lazily_initialized d.
Proof.
  intros Hd. rewrite <- (app_nil_r d).
  by apply lazily_initialized_display.
Qed.

Lemma lazily_initialized_app d1 d2 :
  lazily_initialized d1 →
  (∀ h, EvInitDone (Ret h) ∈ d1 → Forall (reuses (VHandle h)) d2) →
  lazily_initialized d2 →
  lazily_initialized (d1 ++ d2).
Proof.
  intros H1 H12 H2. induction d1 as [|ev d1 IH]; [done|].
  assert (lazily_initialized d1 → lazily_initialized (d1 ++ d2)) as IH'.
  { intros H. apply IH; [done|]. intros h Hh. apply H12. by right. }
  destruct ev as [| | | | | | | | | | | | | | | |[h|x]| | | |];
    cbn [lazily_initialized app] in *; auto.
  apply Forall_app. split; [done|]. apply H12. by left.
Qed.

(** One run of [main], on a session whose chat is already there. *)
Lemma main_reuses inp w chat :
  process_keeps_chat K →
  clicked inp "Start Over" = false →
  session_state w !! "chat" = Some chat → chat ≠ VNone →
  Forall (reuses chat) (new_events w (main K inp w).2) ∧
  session_state (main K inp w).2 !! "chat" = Some chat.
Proof.
  intros Hkeep Hno Hchat Hset.
  apply with_defaults_chat in Hchat.
  pose proof (main_run inp w) as Hm.
  destruct (main K inp w) as [r w']. cbn [fst snd] in *.
  all_paths; events; calm in *; simplify_eq;
    repeat match goal with
    | H : process_image_and_get_responses K ?c ?b ?e ?s = _ |- _ =>
        let Hk := fresh in
        pose proof (Hkeep c b e s) as Hk; rewrite H in Hk; cbn [snd] in Hk;
        clear H
    end;
    (split; [|congruence]);
    unfold header; rewrite ?Forall_app; repeat split;
    try (by apply display_reuses); by repeat constructor.
Qed.

(** One run of [main], on any session. *)
Lemma main_lazily_initialized inp w :
  process_keeps_chat K →
  clicked inp "Start Over" = false →
  lazily_initialized (new_events w (main K inp w).2) ∧
  ∀ h, EvInitDone (Ret h) ∈ new_events w (main K inp w).2 →
       session_state (main K inp w).2 !! "chat" = Some (VHandle h).
Proof.
  intros Hkeep Hno.
  pose proof (main_run inp w) as Hm.
  destruct (main K inp w) as [r w']. cbn [fst snd] in *.
  all_paths; events; calm in *; simplify_eq;
    repeat match goal with
    | H : process_image_and_get_responses K ?c ?b ?e ?s = _ |- _ =>
        let Hk := fresh in
        pose proof (Hkeep c b e s) as Hk; rewrite H in Hk; cbn [snd] in Hk;
        clear H
    end;
    (split;
     [ unfold header; cbn [app lazily_initialized];
       first
         [ by apply lazily_initialized_display_only
         | apply lazily_initialized_display; [done|];
           cbn [app lazily_initialized]; by repeat constructor ]
     | intros h0 Hev; members Hev; kinds;
       rewrite ?lookup_insert_eq in *; congruence ]).
Qed.

Lemma session_reuses inps w chat :
  process_keeps_chat K →
  Forall (λ inp, clicked inp "Start Over" = false) inps →
  session_state w !! "chat" = Some chat → chat ≠ VNone →
  Forall (reuses chat) (new_events w (session K inps w)) ∧
  session_state (session K inps w) !! "chat" = Some chat.
Proof.
  intros Hkeep Hno. revert w.
  induction Hno as [|inp inps Hinp _ IH]; intros w Hchat Hset.
  - cbn [session]. by rewrite new_events_nil.
  - rewrite session_cons. cbn [session].
    destruct (main_reuses inp w chat) as [H1 Hc1]; [done..|].
    destruct (IH _ Hc1 Hset) as [H2 Hc2].
    split; [by apply Forall_app|done].
Qed.

Lemma session_lazily_initialized inps w :
  process_keeps_chat K →
  Forall (λ inp, clicked inp "Start Over" = false) inps →
  lazily_initialized (new_events w (session K inps w)) ∧
  ∀ h, EvInitDone (Ret h) ∈ new_events w (session K inps w) →
       session_state (session K inps w) !! "chat" = Some (VHandle h).
Proof.
  intros Hkeep Hno. revert w.
  induction Hno as [|inp inps Hinp Hno IH]; intros w.
  - cbn [session]. rewrite new_events_nil. split; [done|].
    by intros h ?%elem_of_nil.
  - rewrite session_cons. cbn [session].
    destruct (main_lazily_initialized inp w) as [H1 Hc1]; [done..|].
    destruct (IH (main K inp w).2) as [H2 Hc2].
    split.
    + apply lazily_initialized_app; [done| |done].
      intros h Hh. by apply session_reuses; auto.
    + intros h [Hh|Hh]%elem_of_app; [|by apply Hc2].
      by apply session_reuses; auto.
Qed.

(** C1: take a collaborator whose pipeline does not overwrite the
    ["chat"] entry, and any series of runs of [main] in which the reset
    button is not pressed. Then the log of the series is lazily
    initialized: once [initialize_chat] has returned a handle, no later
    entry calls it again and every later pipeline call is given that
    handle, which is also what ["chat"] holds at the end. A session that
    begins with a chat keeps it and never calls [initialize_chat]. And in
    any single run, [initialize_chat] is called only if the session came
    with no chat: the key missing, or [None] stored under it. *)
Theorem chat_initialized_at_most_once inps w :
  process_keeps_chat K →
  Forall (λ inp, clicked inp "Start Over" = false) inps →
  let d := new_events w (session K inps w) in
  lazily_initialized d ∧
  (∀ h, EvInitDone (Ret h) ∈ d →
        session_state (session K inps w) !! "chat" = Some (VHandle h)) ∧
  (∀ chat, session_state w !! "chat" = Some chat → chat ≠ VNone →
           Forall (reuses chat) d ∧
           session_state (session K inps w) !! "chat" = Some chat) ∧
  (∀ inp, EvInitCall ∈ new_events w (main K inp w).2 →
          session_state w !! "chat" = None ∨
          session_state w !! "chat" = Some VNone).
Proof.
  intros Hkeep Hno d. subst d.
  destruct (session_lazily_initialized inps w Hkeep Hno) as [H1 H2].
  split; [done|]. split; [done|]. split.
  - intros chat Hchat Hset. by apply session_reuses.
  - intros inp Hev.
    destruct (session_state w !! "chat") as [chat|] eqn:Hchat; [|by left].
    right. f_equal. apply with_defaults_chat in Hchat.
    pose proof (main_run inp w) as Hm.
    destruct (main K inp w) as [r w']. cbn [fst snd] in *.
    all_paths; events; members Hev; kinds; calm in *; congruence.
Qed.

(** * Beyond the claims *)

(** ** Lines 17-20 *)

Lemma with_defaults_lookup s key v :
  s !! key = Some v → with_defaults s !! key = Some v.
Proof.
  intros H. unfold with_defaults, default.
  destruct (s !! "messages") eqn:Hm.
  - destruct (s !! "chat") eqn:Hc; [done|].
    destruct (decide (key = "chat")) as [->|]; [congruence|].
    by rewrite lookup_insert_ne.
  - destruct (decide (key = "messages")) as [->|Hk]; [congruence|].
    rewrite lookup_insert_ne by done.
    destruct (s !! "chat") eqn:Hc; [by rewrite lookup_insert_ne|].
    destruct (decide (key = "chat")) as [->|]; [congruence|].
    by rewrite !lookup_insert_ne.
Qed.

Lemma with_defaults_other s key :
  key ≠ "messages" → key ≠ "chat" → with_defaults s !! key = s !! key.
Proof.
  intros Hm Hc. unfold with_defaults, default.
  destruct (s !! "messages"); destruct (_ !! "chat");
    by rewrite ?lookup_insert_ne.
Qed.

Lemma with_defaults_messages s :
  s !! "messages" = None → with_defaults s !! "messages" = Some (VList []).
Proof.
  intros H. unfold with_defaults, default. rewrite H.
  rewrite lookup_insert_ne by done.
  destruct (s !! "chat"); rewrite ?lookup_insert_ne by done;
    by rewrite lookup_insert_eq.
Qed.

Lemma with_defaults_no_chat s :
  s !! "chat" = None → with_defaults s !! "chat" = Some VNone.
Proof.
  intros H. unfold with_defaults, default.
  destruct (s !! "messages"); rewrite ?lookup_insert_ne by done;
    rewrite H; by rewrite lookup_insert_eq.
Qed.

Lemma with_defaults_has s :
  is_Some (with_defaults s !! "messages") ∧
  is_Some (with_defaults s !! "chat").
Proof.
  split.
  - destruct (s !! "messages") eqn:H.
    + rewrite (with_defaults_lookup _ _ _ H). eauto.
    + rewrite (with_defaults_messages _ H). eauto.
  - destruct (s !! "chat") eqn:H.
    + rewrite (with_defaults_lookup _ _ _ H). eauto.
    + rewrite (with_defaults_no_chat _ H). eauto.
Qed.

Lemma with_defaults_twice s : with_defaults (with_defaults s) = with_defaults s.
Proof.
  destruct (with_defaults_has s) as [[m Hm] [c Hc]].
  unfold with_defaults at 1. unfold default. by rewrite Hm, Hc.
Qed.

(** X1: lines 17-20 never fail and never overwrite: an entry the session
    already has, under any key, is still there with the same value; the
    two keys are present afterwards, a missing ["messages"] as the empty
    list and a missing ["chat"] as [None]; nothing is drawn; and running
    the lines again changes nothing. *)
Theorem init_session_state_keeps_entries w :
  let w' := (init_session_state K w).2 in
  (init_session_state K w).1 = Ret tt ∧
  (∀ key v, session_state w !! key = Some v →
            session_state w' !! key = Some v) ∧
  (∀ key, key ≠ "messages" → key ≠ "chat" →
          session_state w' !! key = session_state w !! key) ∧
  (session_state w !! "messages" = None →
   session_state w' !! "messages" = Some (VList [])) ∧
  (session_state w !! "chat" = None →
   session_state w' !! "chat" = Some VNone) ∧
  new_events w w' = [] ∧
  init_session_state K w' = (Ret tt, w').
Proof.
  cbv zeta. rewrite init_session_state_eq. cbn [fst snd]. calm.
  split; [done|].
  split; [apply with_defaults_lookup|].
  split; [apply with_defaults_other|].
  split; [apply with_defaults_messages|].
  split; [apply with_defaults_no_chat|].
  split.
  - unfold new_events. calm. by rewrite drop_all.
  - rewrite init_session_state_eq. f_equal.
    apply world_eq; calm; try reflexivity. apply with_defaults_twice.
Qed.

(** ** A transcript that cannot be drawn *)

Lemma display_message_draw m w :
  display_message K m w =
    match draw_error K (ext w) m with
    | Some x => (Raise x, extend (shown_before_error m) w)
    | None => (Ret tt, extend (shown m) w)
    end.
Proof.
  unfold display_message, dict_get, dict_contains, draw_error,
    shown_before_error, shown.
  unfold_script.
  destruct (m !! "role") as [[|role]|]; calm.
  1,3: by rewrite extend_nil.
  destruct (m !! "content") as [content|]; calm.
  2:{ f_equal. same_world. }
  destruct (m !! "image_path") as [p|] eqn:Hp; calm.
  - rewrite bool_decide_true by eauto.
    destruct (truthy p); calm.
    + destruct (image_error K (ext w) (ImgPath p)); calm;
        f_equal; same_world.
    + f_equal; same_world.
  - rewrite bool_decide_false by (by intros []). calm.
    f_equal; same_world.
Qed.

Lemma well_formed_draw_error e m :
  well_formed K e m ↔ draw_error K e m = None.
Proof.
  unfold well_formed, draw_error. split.
  - intros ([role ->] & [content ->] & Hi).
    destruct (m !! "image_path") as [p|]; [|done].
    destruct (truthy p) eqn:Ht; [|done]. by apply Hi.
  - destruct (m !! "role") as [[|role]|]; [done| |done].
    destruct (m !! "content") as [content|]; [|done].
    intros Hi. split; [by eauto|]. split; [by eauto|].
    intros p Hp Ht. by rewrite Hp, Ht in Hi.
Qed.

Lemma malformed_draw_error e m :
  malformed m → is_Some (draw_error K e m).
Proof.
  unfold malformed, draw_error. intros [Hm|Hm].
  - rewrite Hm. by eauto.
  - destruct (m !! "role") as [[|role]|]; rewrite ?Hm; by eauto.
Qed.

Lemma for_each_stops l1 m l2 w x :
  Forall (well_formed K (ext w)) l1 → draw_error K (ext w) m = Some x →
  for_each K (l1 ++ m :: l2) (display_message K) w =
    (Raise x, extend (transcript l1 ++ shown_before_error m) w).
Proof.
  intros Hl Hm. revert w Hl Hm.
  induction l1 as [|m1 l1 IH]; intros w Hl Hm; cbn [app for_each].
  - unfold mbind, M_bind. by rewrite display_message_draw, Hm.
  - inversion Hl as [|? ? Hm1 Hl1]; subst.
    unfold mbind at 1, M_bind. rewrite display_message_shown by done.
    rewrite IH by done. unfold transcript. cbn [mbind list_bind].
    by rewrite extend_extend, app_assoc.
Qed.

Lemma first_undrawable e l :
  Exists (λ m, is_Some (draw_error K e m)) l →
  ∃ l1 m l2 x,
    l = l1 ++ m :: l2 ∧ Forall (well_formed K e) l1 ∧
    draw_error K e m = Some x.
Proof.
  induction l as [|m l IH]; intros Hex; [by inversion Hex|].
  destruct (draw_error K e m) as [x|] eqn:Hd.
  - exists [], m, l, x. split; [done|]. split; [constructor|done].
  - inversion Hex as [? ? [y Hy]|? ? Htail]; subst; [congruence|].
    destruct (IH Htail) as (l1 & m' & l2 & x & -> & Hl1 & Hm').
    exists (m :: l1), m', l2, x. split; [done|]. split; [|done].
    constructor; [|done]. by apply well_formed_draw_error.
Qed.

Lemma display_chat_history_stops w l1 m l2 x :
  session_state w !! "messages" = Some (VList (l1 ++ m :: l2)) →
  Forall (well_formed K (ext w)) l1 → draw_error K (ext w) m = Some x →
  display_chat_history K w =
    (Raise x, extend (transcript l1 ++ shown_before_error m) w).
Proof.
  intros Hs Hl Hm.
  unfold display_chat_history, session_get, iterate, mbind, M_bind.
  rewrite Hs. unfold mret, M_ret. by apply for_each_stops.
Qed.

(** X2: drawing stops at the first message that cannot be drawn, with
    the error [x] of that message. The messages before it are drawn as
    usual, the messages after it are not drawn, and the session state is
    not touched. What the log shows of the message itself depends on
    where it fails. A missing role is a [KeyError] and a role [None] is
    refused by [st.chat_message]: both come before a chat block is
    opened. A missing content is a [KeyError] inside the block, which
    is closed again as the error leaves the [with] statement. An image
    that [st.image] cannot draw fails after the content was written,
    and the block is closed again as well. *)
Theorem transcript_stops_at_broken_message w l1 m l2 x :
  session_state w !! "messages" = Some (VList (l1 ++ m :: l2)) →
  Forall (well_formed K (ext w)) l1 →
  draw_error K (ext w) m = Some x →
  let r := (display_chat_history K w).1 in
  let w' := (display_chat_history K w).2 in
  r = Raise x ∧
  session_state w' = session_state w ∧
  (m !! "role" = None →
   x = KeyError "role" ∧ new_events w w' = transcript l1) ∧
  (m !! "role" = Some ANone →
   x = StreamlitAPIException ∧ new_events w w' = transcript l1) ∧
  (∀ role, m !! "role" = Some (AStr role) → m !! "content" = None →
   x = KeyError "content" ∧
   new_events w w' =
     transcript l1 ++ [EvChatOpen (AStr role); EvChatClose]) ∧
  (∀ role content,
     m !! "role" = Some (AStr role) → m !! "content" = Some content →
     ∃ p, m !! "image_path" = Some p ∧ truthy p = true ∧
          image_error K (ext w) (ImgPath p) = Some x ∧
          new_events w w' =
            transcript l1 ++
            [EvChatOpen (AStr role); EvWrite content; EvChatClose]).
Proof.
  intros Hs Hl Hm. cbv zeta.
  rewrite (display_chat_history_stops w l1 m l2 x Hs Hl Hm).
  cbn [fst snd]. rewrite new_events_extend.
  split; [done|]. split; [done|].
  unfold draw_error in Hm. unfold shown_before_error.
  split; [|split; [|split]].
  - intros Hr. rewrite Hr in *. cbv beta iota in *.
    rewrite app_nil_r. split; congruence.
  - intros Hr. rewrite Hr in *. cbv beta iota in *.
    rewrite app_nil_r. split; congruence.
  - intros role Hr Hc. rewrite Hr, Hc in *. cbv beta iota in *.
    split; [congruence|done].
  - intros role content Hr Hc. rewrite Hr, Hc in *. cbv beta iota in *.
    destruct (m !! "image_path") as [p|]; [|done].
    destruct (truthy p) eqn:Ht; [|done].
    by exists p.
Qed.

Lemma display_event_not_widget ev : display_event ev → ¬ widget_event ev.
Proof. destruct ev; cbn; try tauto. destruct src; tauto. Qed.

Lemma display_event_not_button ev :
  display_event ev → ∀ label, ev ≠ EvButton label.
Proof. by destruct ev. Qed.

Lemma header_display_quiet d ev :
  Forall display_event d → ev ∈ header ++ d →
  ¬ widget_event ev ∧ ¬ analyze_event ev.
Proof.
  intros F Hev. apply elem_of_app in Hev as [Hev|Hev].
  - unfold header in Hev. members Hev; subst;
      cbn [widget_event analyze_event]; tauto.
  - apply (proj1 (Forall_forall _ _) F) in Hev.
    split; [by apply display_event_not_widget|].
    intros Ha. by destruct (display_not_analyze ev Hev Ha).
Qed.

(** X3: one message that cannot be drawn makes the page unusable. If
    some message of the session lacks its role or its content, has the
    role [None], or has an image that [st.image] cannot draw, every run
    of [main] ends in the error of the first such message while the
    transcript is drawn, whatever the user does: no upload widget and no
    button is rendered -- also not the reset button, so the session
    cannot be cleared from the page -- no collaborator is called, and
    the session state stays as lines 17-20 leave it. *)
Theorem broken_message_stops_page inp w l :
  session_state w !! "messages" = Some (VList l) →
  Exists (λ m, is_Some (draw_error K (ext w) m)) l →
  let w' := (main K inp w).2 in
  (∃ l1 m l2 x,
     l = l1 ++ m :: l2 ∧ Forall (well_formed K (ext w)) l1 ∧
     draw_error K (ext w) m = Some x ∧
     (main K inp w).1 = Raise x) ∧
  session_state w' = with_defaults (session_state w) ∧
  ext w' = ext w ∧
  ∀ ev, ev ∈ new_events w w' → ¬ widget_event ev ∧ ¬ analyze_event ev.
Proof.
  intros Hs Hex.
  destruct (first_undrawable _ l Hex) as (l1 & m & l2 & x & -> & Hl1 & Hm).
  assert (session_state (started w) !! "messages" =
            Some (VList (l1 ++ m :: l2))) as Hs'.
  { calm. by apply with_defaults_lookup. }
  pose proof (display_chat_history_stops (started w) _ _ _ _ Hs' Hl1 Hm)
    as Hd.
  pose proof (main_run inp w) as Hrun.
  destruct (main K inp w) as [r w']. cbn [fst snd] in *.
  paths Hrun;
    match goal with
    | H : display_chat_history K _ = _ |- _ => rewrite Hd in H
    end;
    simplify_eq.
  split; [by eauto 10|]. split; [done|]. split; [done|].
  intros ev Hev. events. by eapply header_display_quiet.
Qed.

(** ** The reset button *)

Lemma main_after_before_reset inp w :
  main K inp w =
    match before_reset K inp w with
    | (Ret _, w0) => reset_section K inp w0
    | (Raise x, w0) => (Raise x, w0)
    end.
Proof. reflexivity. Qed.

Lemma before_reset_run inp w :
  (∃ d x,
     Forall display_event d ∧
     before_reset K inp w = (Raise x, extend d (started w))) ∨
  (∃ d,
     Forall display_event d ∧
     display_chat_history K (started w) = (Ret tt, extend d (started w)) ∧
     UploadRun inp (extend d (started w))
       (before_reset K inp w).1 (before_reset K inp w).2).
Proof.
  unfold before_reset, page_header, emit, mbind, M_bind.
  rewrite init_session_state_eq.
  replace (set_session K with_defaults _) with (started w) by same_world.
  destruct (display_chat_history_frame (started w)) as (d & Hd & Fd).
  destruct (display_chat_history K (started w)) as [[[]|x] w1] eqn:Ed;
    cbn [snd] in Hd; subst w1.
  - right. exists d. split; [done|]. split; [done|].
    apply upload_section_run.
  - left. by exists d, x.
Qed.

(** X4: the reset button is rendered exactly in the runs in which
    everything above it went through. When the transcript or the analyze
    action raises, [main] ends there: the button is not rendered and the
    session state is not cleared, pressed or not. *)
Theorem reset_button_needs_clean_run inp w :
  (EvButton "Start Over" ∈ new_events w (main K inp w).2 ↔
   (before_reset K inp w).1 = Ret tt) ∧
  ∀ x, (before_reset K inp w).1 = Raise x →
       main K inp w = before_reset K inp w.
Proof.
  rewrite main_after_before_reset.
  destruct (before_reset_run inp w) as [(d & x & Fd & Hb)|(d & Fd & _ & Hu)].
  - rewrite Hb. cbn [fst snd]. split; [|done]. split; [|done].
    intros Hev. events. members Hev; kinds.
  - destruct (before_reset K inp w) as [[[]|x] w0]; cbn [fst snd] in *.
    + split; [|done]. split; [intros _; done|intros _].
      pose proof (reset_section_run inp w0) as Hr.
      destruct (reset_section K inp w0) as [r w']. cbn [fst snd] in *.
      all_paths; events; found.
    + split; [|done]. split; [|done].
      intros Hev. all_paths; events; members Hev; kinds.
Qed.

(** ** Runs in which nothing is pressed *)

Lemma accept_nothing type : accept type None = None.
Proof. reflexivity. Qed.

Lemma quiet_run inp w :
  clicked inp "Start Over" = false →
  selected inp = None ∨ clicked inp "Analyze and Find Products" = false →
  let w' := (main K inp w).2 in
  session_state w' = with_defaults (session_state w) ∧
  ext w' = ext w ∧ loops w' = loops w ∧ spinner w' = spinner w ∧
  ∀ ev, ev ∈ new_events w w' → ¬ analyze_event ev.
Proof.
  intros Hno Hquiet.
  pose proof (main_run inp w) as Hrun.
  destruct (main K inp w) as [r w']. cbn [fst snd] in *.
  assert (∀ f, accept upload_types (selected inp) = Some f →
               clicked inp "Analyze and Find Products" = true → False)
    as Hnever.
  { intros f Ha Hc. destruct Hquiet as [Hsel|Hidle]; [|congruence].
    by rewrite Hsel in Ha. }
  paths Hrun;
    repeat match goal with
    | H : UploadRun _ _ _ _ |- _ => paths H
    | H : ResetRun _ _ _ _ |- _ => paths H
    end;
    try congruence; try (exfalso; by eapply Hnever).
  all: cbv zeta; calm; repeat (split; [reflexivity|]).
  all: intros ev Hev Ha; events; members Hev; kinds.
Qed.

(** X5: a run in which the reset button is not pressed, and in which no
    file is selected or the analyze button is not pressed, only draws.
    It calls no collaborator, creates no loop, shows no spinner, and
    leaves the collaborator's state alone; all it does to the session
    state is what lines 17-20 do. Drawing again gives the same session
    state. *)
Theorem quiet_run_only_draws inp w :
  clicked inp "Start Over" = false →
  selected inp = None ∨ clicked inp "Analyze and Find Products" = false →
  let w' := (main K inp w).2 in
  session_state w' = with_defaults (session_state w) ∧
  ext w' = ext w ∧ loops w' = loops w ∧ spinner w' = spinner w ∧
  (∀ ev, ev ∈ new_events w w' → ¬ analyze_event ev) ∧
  session_state (main K inp w').2 = session_state w'.
Proof.
  intros Hno Hquiet.
  destruct (quiet_run inp w Hno Hquiet) as (Hs & He & Hl & Hsp & Hev).
  destruct (quiet_run inp (main K inp w).2 Hno Hquiet) as (Hs' & _).
  cbv zeta. repeat (split; [done|]).
  rewrite Hs', Hs. apply with_defaults_twice.
Qed.

(** ** What can leave [main] *)

Lemma for_each_outcome l w x :
  (for_each K l (display_message K) w).1 = Raise x →
  ∃ m, m ∈ l ∧ draw_error K (ext w) m = Some x.
Proof.
  revert w. induction l as [|m l IH]; intros w; cbn [for_each].
  - by unfold mret, M_ret.
  - unfold mbind, M_bind. rewrite display_message_draw.
    destruct (draw_error K (ext w) m) as [y|] eqn:Hd.
    + intros [= <-]. exists m. split; [left|done].
    + intros Hx. destruct (IH _ Hx) as (m' & Hin & Hm').
      exists m'. split; [by right|done].
Qed.

Lemma display_chat_history_outcome w v x :
  session_state w !! "messages" = Some v →
  (display_chat_history K w).1 = Raise x →
  (x = TypeError ∧ ∀ l, v ≠ VList l) ∨
  ∃ l m, v = VList l ∧ m ∈ l ∧ draw_error K (ext w) m = Some x.
Proof.
  intros Hv.
  unfold display_chat_history, session_get, iterate, mbind, M_bind.
  rewrite Hv. destruct v; unfold raise, mret, M_ret; cbn [fst];
    try (intros [= <-]; by left).
  intros H. right. destruct (for_each_outcome _ _ _ H) as (m & Hin & Hm).
  by eauto.
Qed.

(** X6: an exception [x] that leaves [main] comes from one of four
    places. It is the [RerunException] of the reset, raised after the
    session state was cleared. Or it comes from drawing the transcript,
    before any widget was rendered or any collaborator called: a
    [TypeError] when ["messages"] holds no list, else the error of a
    message that cannot be drawn -- a [KeyError] for ["role"] or
    ["content"], the refusal of the role [None] by [st.chat_message], or
    what [st.image] raised on the image path. Or it is what [st.image]
    raised on the uploaded file, before the analyze button was rendered.
    Or it is an exception that [initialize_chat] or
    [process_image_and_get_responses] raised. In particular [main] never
    fails on a missing ["messages"] or ["chat"] key, nor on a closed
    event loop. *)
Theorem main_raises_only inp w x :
  (main K inp w).1 = Raise x →
  let w' := (main K inp w).2 in
  let messages := with_defaults (session_state w) !! "messages" in
  (x = RerunException ∧ clicked inp "Start Over" = true ∧
   session_state w' = ∅) ∨
  (((x = TypeError ∧ ∀ l, messages ≠ Some (VList l)) ∨
    (∃ l m, messages = Some (VList l) ∧ m ∈ l ∧
            draw_error K (ext w) m = Some x)) ∧
   ∀ ev, ev ∈ new_events w w' → ¬ widget_event ev ∧ ¬ analyze_event ev) ∨
  ((∃ f, accept ["jpg"; "jpeg"; "png"] (selected inp) = Some f ∧
         image_error K (ext w) (ImgUpload f) = Some x) ∧
   ∀ ev, ev ∈ new_events w w' →
         (∀ label, ev ≠ EvButton label) ∧ ¬ analyze_event ev) ∨
  EvInitDone (Raise x) ∈ new_events w w' ∨
  EvProcessDone (Raise x) ∈ new_events w w'.
Proof.
  intros Hx.
  pose proof (main_run inp w) as Hrun.
  destruct (main K inp w) as [r w']. cbn [fst snd] in *. subst r.
  destruct (with_defaults_has (session_state w)) as [[v Hm] [c Hc]].
  cbv zeta. fold upload_types.
  paths Hrun.
  - right. left. split.
    + match goal with H : display_chat_history K _ = _ |- _ =>
        pose proof (display_chat_history_outcome (started w) v x Hm) as Ho;
        rewrite H in Ho
      end.
      destruct (Ho eq_refl) as [[-> Hv]|(l & m & -> & Hin & Hd)].
      * left. split; [done|]. intros l. rewrite Hm. intros [= ->].
        by eapply Hv.
      * right. by eauto.
    + intros ev Hev. events. by eapply header_display_quiet.
  - right. right. all_paths; calm in *; simplify_eq; events.
    + left. split; [by eauto|].
      intros ev Hev. members Hev; subst;
        (split;
         [ first [by apply display_event_not_button | by intros label]
         | first [ by intros Ha; eapply display_not_analyze
                 | cbn [analyze_event]; tauto ] ]).
    + right. left. found.
    + right. right. found.
    + right. right. found.
  - all_paths; left; by repeat split.
Qed.

(** X7: in every run, however it ends, the page is configured first and
    once: the log of the run begins with the page configuration, the
    title and the caption, and no page configuration follows. *)
Theorem page_config_comes_first inp w :
  ∃ rest,
    new_events w (main K inp w).2 =
      EvPageConfig "Image Analysis & Shopping Assistant" ::
      EvTitle "Image Analysis & Shopping Assistant" ::
      EvCaption "Upload an image to find where to buy similar items!" ::
      rest ∧
    ∀ page_title, EvPageConfig page_title ∉ rest.
Proof.
  pose proof (main_run inp w) as Hrun.
  destruct (main K inp w) as [r w']. cbn [fst snd] in *.
  all_paths; events; unfold header; cbn [app];
    (eexists; split; [reflexivity|]);
    intros page_title Hev; members Hev; kinds.
Qed.

(** ** How often the collaborators are called *)

Lemma pipeline_calls_app d1 d2 :
  pipeline_calls (d1 ++ d2) = pipeline_calls d1 ++ pipeline_calls d2.
Proof. apply omap_app. Qed.

Lemma init_calls_app d1 d2 :
  init_calls (d1 ++ d2) = init_calls d1 ++ init_calls d2.
Proof. apply omap_app. Qed.

Lemma calls_display d :
  Forall display_event d → pipeline_calls d = [] ∧ init_calls d = [].
Proof.
  induction 1 as [|ev d Hev _ [IHp IHi]]; [done|].
  unfold pipeline_calls, init_calls in *. cbn. rewrite IHp, IHi.
  by destruct ev.
Qed.

Lemma main_calls inp w :
  (length (pipeline_calls (new_events w (main K inp w).2)) ≤ 1)%nat ∧
  (length (init_calls (new_events w (main K inp w).2)) ≤ 1)%nat.
Proof.
  pose proof (main_run inp w) as Hrun.
  destruct (main K inp w) as [r w']. cbn [fst snd] in *.
  all_paths; events;
    rewrite !pipeline_calls_app, !init_calls_app;
    destruct (calls_display d) as [-> ->]; try done;
    cbn; lia.
Qed.

(** X8: a run of [main] calls [initialize_chat] at most once and the
    pipeline at most once, so a session of [n] runs costs at most [n]
    calls of each, whatever is pressed and however the runs end. *)
Theorem one_pipeline_call_per_run inps w :
  (length (pipeline_calls (new_events w (session K inps w)))
     ≤ length inps)%nat ∧
  (length (init_calls (new_events w (session K inps w)))
     ≤ length inps)%nat.
Proof.
  revert w. induction inps as [|inp inps IH]; intros w.
  - cbn [session]. by rewrite new_events_nil.
  - rewrite session_cons, pipeline_calls_app, init_calls_app, !length_app.
    destruct (main_calls inp w) as [Hp Hi].
    destruct (IH (main K inp w).2) as [IHp IHi].
    cbn [length]. lia.
Qed.

(** X9: an analyze action on a session without a chat -- the key
    missing, as after a reset, or [None] stored under it -- always calls
    [initialize_chat], and calls the pipeline only with a handle that
    [initialize_chat] returned in that same run. *)
Theorem missing_chat_is_initialized inp w text :
  session_state w !! "chat" = None ∨ session_state w !! "chat" = Some VNone →
  EvSpinnerShow text ∈ new_events w (main K inp w).2 →
  EvInitCall ∈ new_events w (main K inp w).2 ∧
  ∀ chat image_bytes,
    EvProcessCall chat image_bytes ∈ new_events w (main K inp w).2 →
    ∃ h, chat = VHandle h ∧
         EvInitDone (Ret h) ∈ new_events w (main K inp w).2.
Proof.
  intros Hnone Hshow.
  assert (with_defaults (session_state w) !! "chat" = Some VNone) as Hc.
  { destruct Hnone as [H|H];
      [by apply with_defaults_no_chat | by apply with_defaults_lookup]. }
  pose proof (main_run inp w) as Hrun.
  destruct (main K inp w) as [r w']. cbn [fst snd] in *.
  all_paths; events; try (exfalso; members Hshow; kinds; fail);
    calm in *; simplify_eq;
    (split; [found|]);
    intros chat image_bytes Hev; members Hev; kinds;
    eexists; (split; [reflexivity|]); found.
Qed.

(** ** Who writes the transcript *)

Lemma main_messages inp w :
  keeps_messages K →
  clicked inp "Start Over" = false →
  session_state (main K inp w).2 !! "messages" =
    with_defaults (session_state w) !! "messages".
Proof.
  intros [Hi Hp] Hno.
  pose proof (main_run inp w) as Hrun.
  destruct (main K inp w) as [r w']. cbn [fst snd] in *.
  all_paths; calm in *; try congruence; try reflexivity;
    repeat match goal with
    | H : initialize_chat K ?e ?s = _ |- _ =>
        let Hk := fresh in
        pose proof (Hi e s) as Hk; rewrite H in Hk; cbn [snd] in Hk;
        clear H
    | H : process_image_and_get_responses K ?c ?b ?e ?s = _ |- _ =>
        let Hk := fresh in
        pose proof (Hp c b e s) as Hk; rewrite H in Hk; cbn [snd] in Hk;
        clear H
    end;
    rewrite ?lookup_insert_ne in * by done; congruence.
Qed.

(** X10: [main] never writes a message itself. With collaborators that
    leave ["messages"] alone, and as long as the reset button is not
    pressed, the list a session holds under ["messages"] is the same
    after any number of runs, analyses included; a session without the
    key gets the empty list in its first run and keeps it. *)
Theorem page_never_writes_messages inp inps w :
  keeps_messages K →
  Forall (λ inp, clicked inp "Start Over" = false) (inp :: inps) →
  session_state (session K (inp :: inps) w) !! "messages" =
    with_defaults (session_state w) !! "messages".
Proof.
  intros Hkeep Hno. revert inp w Hno.
  induction inps as [|inp' inps IH]; intros inp w Hno;
    inversion Hno as [|? ? Hinp Hrest]; subst.
  - cbn [session]. by apply main_messages.
  - change (session K (inp :: inp' :: inps) w)
      with (session K (inp' :: inps) (main K inp w).2).
    rewrite IH by done.
    destruct (with_defaults_has (session_state w)) as [[v Hv] _].
    rewrite Hv. apply with_defaults_lookup.
    rewrite main_messages by done. exact Hv.
Qed.

(** ** The spinner and the chat blocks *)

Lemma main_spinner inp w :
  spinner (main K inp w).2 = None ∨
  spinner (main K inp w).2 = spinner w.
Proof.
  pose proof (main_run inp w) as Hrun.
  destruct (main K inp w) as [r w']. cbn [fst snd] in *.
  all_paths; calm; auto.
Qed.

(** X11: no run leaves the spinner on the page: if none is shown when a
    session begins, none is shown after any of its runs, also when a
    collaborator raised in the middle of an analysis. *)
Theorem spinner_never_left_on inps w :
  spinner w = None → spinner (session K inps w) = None.
Proof.
  revert w. induction inps as [|inp inps IH]; intros w Hw; [done|].
  cbn [session]. apply IH.
  destruct (main_spinner inp w) as [H|H]; congruence.
Qed.

Lemma display_message_balanced m w :
  ∃ d, (display_message K m w).2 = extend d w ∧
       length (omap opened d) = length (omap closed_block d).
Proof.
  rewrite display_message_draw.
  destruct (draw_error K (ext w) m) as [x|]; cbn [snd];
    eexists; (split; [reflexivity|]).
  - unfold shown_before_error.
    destruct (m !! "role") as [[|role]|]; [done| |done].
    by destruct (m !! "content").
  - unfold shown. destruct (m !! "role"), (m !! "content"); try done.
    destruct (m !! "image_path") as [p|]; [destruct (truthy p)|]; done.
Qed.

Lemma for_each_balanced l w :
  ∃ d, (for_each K l (display_message K) w).2 = extend d w ∧
       length (omap opened d) = length (omap closed_block d).
Proof.
  revert w. induction l as [|m l IH]; intros w; cbn [for_each].
  - exists []. by rewrite extend_nil.
  - unfold mbind, M_bind.
    destruct (display_message_balanced m w) as (d1 & H1 & B1).
    destruct (display_message K m w) as [[[]|x] w1]; cbn [snd] in *;
      subst w1.
    + destruct (IH (extend d1 w)) as (d2 & H2 & B2).
      exists (d1 ++ d2). rewrite H2, extend_extend. split; [done|].
      rewrite !omap_app, !length_app. lia.
    + by exists d1.
Qed.

(** X12: whatever the session holds under ["messages"], and whether or
    not drawing fails, the transcript closes every chat block it opens:
    its log has as many closings as openings. *)
Theorem chat_blocks_are_closed w :
  let d := new_events w (display_chat_history K w).2 in
  length (omap opened d) = length (omap closed_block d).
Proof.
  cbv zeta.
  unfold display_chat_history, session_get, iterate, mbind, M_bind.
  destruct (session_state w !! "messages") as [[| |l]|];
    unfold raise, mret, M_ret; cbn [snd]; rewrite ?new_events_nil; try done.
  destruct (for_each_balanced l w) as (d & -> & Hd).
  by rewrite new_events_extend.
Qed.

End Proofs.

(** * The claims on concrete sessions *)

(** Evaluate a log and look an event up in it. *)
Ltac logged :=
  vm_compute;
  repeat first [apply list_elem_of_here | apply list_elem_of_further].

(** Check, message by message, that a list of messages can be drawn. *)
Ltac drawable :=
  repeat first
    [ apply List.Forall_nil
    | apply List.Forall_cons;
      [apply well_formed_draw_error; vm_compute; reflexivity|] ].

(** The spec's first scenario: an empty session, [photo.png] uploaded,
    the analyze button pressed. The chat is set up, the pipeline appends
    its one message, and the next transcript shows exactly that
    message. *)
Example first_analysis :
  let inp := Demo.press "Analyze and Find Products" (Some Demo.photo) in
  let w' := (main Demo.steady inp (Demo.blank Demo.steady 0)).2 in
  (main Demo.steady inp (Demo.blank Demo.steady 0)).1 = Ret tt ∧
  session_state w' !! "chat" = Some (VHandle 1) ∧
  session_state w' !! "messages" =
    Some (VList [Demo.message "assistant" "Found 3 matching items"]) ∧
  new_events w' (display_chat_history Demo.steady w').2 =
    [EvChatOpen (AStr "assistant");
     EvWrite (AStr "Found 3 matching items"); EvChatClose].
Proof. vm_compute. repeat split. Qed.

Lemma steady_keeps_chat : process_keeps_chat Demo.steady.
Proof.
  intros chat image_bytes e s. unfold Demo.steady.
  cbn [process_image_and_get_responses snd]. unfold Demo.append_message.
  destruct (s !! "messages") as [[]|]; rewrite ?lookup_insert_ne by done;
    reflexivity.
Qed.

(** Two analyses of the same photo, then a run with nothing pressed. *)
Lemma chat_initialized_at_most_once_witness :
  let inps := [Demo.press "Analyze and Find Products" (Some Demo.photo);
               Demo.press "Analyze and Find Products" (Some Demo.photo);
               Demo.idle (Some Demo.photo)] in
  let w := Demo.blank Demo.steady 0 in
  lazily_initialized (new_events w (session Demo.steady inps w)) ∧
  session_state (session Demo.steady inps w) !! "chat" = Some (VHandle 1).
Proof.
  intros inps w.
  assert (Forall (λ inp, clicked inp "Start Over" = false) inps) as Hno.
  { repeat constructor. }
  destruct (chat_initialized_at_most_once Demo.steady inps w
              steady_keeps_chat Hno) as (Hlazy & Hstored & _).
  split; [exact Hlazy|]. apply Hstored. logged.
Defined.

(** "Start Over" in the middle of a conversation. *)
Lemma reset_clears_session_witness :
  let inp := Demo.press "Start Over" (Some Demo.photo) in
  let w := Demo.chatting Demo.steady 0 in
  (main Demo.steady inp w).1 = Raise RerunException ∧
  session_state (main Demo.steady inp w).2 = ∅.
Proof.
  intros inp w.
  assert ((before_reset Demo.steady inp w).1 = Ret tt) as Hreach.
  { vm_compute. reflexivity. }
  assert (clicked inp "Start Over" = true) as Hpress.
  { reflexivity. }
  destruct (reset_clears_session Demo.steady inp w Hreach Hpress)
    as (Hrerun & Hempty & _).
  split; [exact Hrerun | exact Hempty].
Defined.

(** The first analysis of a session. *)
Lemma init_completes_before_process_witness :
  let w := Demo.rendered Demo.steady 0 in
  ∃ h,
    new_events w (analyze Demo.steady Demo.photo w).2 =
      [EvSpinnerShow "Processing image..."; EvNewLoop 0; EvSetLoop 0;
       EvRun 0; EvInitCall; EvInitDone (Ret h);
       EvRun 0; EvProcessCall (VHandle h) (getvalue Demo.photo);
       EvProcessDone (Ret tt);
       EvCloseLoop 0; EvSpinnerClear].
Proof.
  intros w.
  assert (session_state w !! "chat" = Some VNone) as Hnone.
  { vm_compute. reflexivity. }
  destruct (proj1 (init_completes_before_process Demo.steady Demo.photo w)
              Hnone) as [(x & Hraise & _)|(h & Hlog)].
  - vm_compute in Hraise. discriminate Hraise.
  - exists h. exact Hlog.
Defined.


(** What the assumption on the collaborator is for: a pipeline that
    writes the user's message to the transcript and then raises leaves
    that message there, as [main] does not undo what the call did. The
    spinner is cleared all the same. *)
Lemma failing_process_leaves_message :
  let inp := Demo.press "Analyze and Find Products" (Some Demo.photo) in
  let w := Demo.rendered Demo.failing_process 0 in
  let w' := (main Demo.failing_process inp w).2 in
  EvProcessDone (Raise (CollaboratorError "analysis failed"))
    ∈ new_events w w' ∧
  spinner w' = None ∧
  session_state w !! "messages" = Some (VList []) ∧
  session_state w' !! "messages" =
    Some (VList [Demo.message "user" "Uploaded an image"]).
Proof.
  intros inp w w'. subst inp w w'.
  split; [logged|].
  split; [vm_compute; reflexivity|].
  split; vm_compute; reflexivity.
Qed.

Lemma collaborator_errors_propagate_witness :
  let inp := Demo.press "Analyze and Find Products" (Some Demo.photo) in
  let w := Demo.blank Demo.failing_init 0 in
  (main Demo.failing_init inp w).1 =
    Raise (CollaboratorError "no credentials").
Proof.
  intros inp w.
  apply (collaborator_errors_propagate Demo.failing_init inp w).
  left. logged.
Defined.

Lemma analyze_only_with_upload_witness :
  let inp := Demo.press "Analyze and Find Products" (Some Demo.photo) in
  ∃ f,
    accept upload_types (selected inp) = Some f ∧
    ∀ chat image_bytes,
      EvProcessCall (VHandle 1) (getvalue Demo.photo) =
        EvProcessCall chat image_bytes →
      image_bytes = getvalue f.
Proof.
  intros inp.
  apply (analyze_only_with_upload Demo.steady inp
           (Demo.blank Demo.steady 0)
           (EvProcessCall (VHandle 1) (getvalue Demo.photo))).
  - logged.
  - left. exact I.
Defined.

(** A photo is previewed, also under a name in capitals; a file that
    is not an image stops the run; a text file leaves only the widget. *)
Lemma upload_takes_one_image_witness :
  let w := Demo.blank Demo.steady 0 in
  (∃ rest,
     new_events w
       (upload_section Demo.steady (Demo.idle (Some Demo.photo)) w).2 =
       EvFileUploader "Choose an image..." ["jpg"; "jpeg"; "png"] ::
       EvImage (ImgUpload Demo.photo) (Some "Uploaded Image") ::
       EvButton "Analyze and Find Products" :: rest ∧
     Forall analyze_event rest) ∧
  (∃ rest,
     new_events w
       (upload_section Demo.steady (Demo.idle (Some Demo.capitals)) w).2 =
       EvFileUploader "Choose an image..." ["jpg"; "jpeg"; "png"] ::
       EvImage (ImgUpload Demo.capitals) (Some "Uploaded Image") ::
       EvButton "Analyze and Find Products" :: rest ∧
     Forall analyze_event rest) ∧
  ((upload_section Demo.steady (Demo.idle (Some Demo.corrupt)) w).1 =
     Raise UnidentifiedImageError ∧
   new_events w
     (upload_section Demo.steady (Demo.idle (Some Demo.corrupt)) w).2 =
     [EvFileUploader "Choose an image..." ["jpg"; "jpeg"; "png"]]) ∧
  ((upload_section Demo.steady (Demo.idle (Some Demo.notes)) w).1 = Ret tt ∧
   new_events w
     (upload_section Demo.steady (Demo.idle (Some Demo.notes)) w).2 =
     [EvFileUploader "Choose an image..." ["jpg"; "jpeg"; "png"]]).
Proof.
  intros w. split; [|split; [|split]].
  - apply (proj1 (proj2 (upload_takes_one_image Demo.steady
                           (Demo.idle (Some Demo.photo)) w))
             Demo.photo "png").
    + reflexivity.
    + vm_compute. reflexivity.
    + logged.
    + vm_compute. reflexivity.
  - apply (proj1 (proj2 (upload_takes_one_image Demo.steady
                           (Demo.idle (Some Demo.capitals)) w))
             Demo.capitals "PNG").
    + reflexivity.
    + vm_compute. reflexivity.
    + logged.
    + vm_compute. reflexivity.
  - apply (proj1 (proj2 (proj2 (upload_takes_one_image Demo.steady
                                  (Demo.idle (Some Demo.corrupt)) w)))
             Demo.corrupt "png").
    + reflexivity.
    + vm_compute. reflexivity.
    + logged.
    + vm_compute. reflexivity.
  - apply (proj2 (proj2 (proj2 (proj2 (upload_takes_one_image Demo.steady
                                  (Demo.idle (Some Demo.notes)) w))))
             Demo.notes).
    + reflexivity.
    + intros x Hx. vm_compute in Hx. injection Hx as <-.
      intros Hin. apply (bool_decide_pack _) in Hin.
      vm_compute in Hin. exact Hin.
Defined.

(** C8, as first stated, fails in two ways. [corrupt.png] has an
    accepted extension and the widget returns it, so a file is present;
    but its bytes are not an image, [st.image] raises on line 34, and
    the page shows neither a preview nor the analyze button: the run of
    [main] ends in that error. And the extension of [PHOTO.PNG] is not
    one of jpg, jpeg, png as written, yet the widget returns the file
    and it is previewed. *)
Lemma preview_needs_an_image_counterexample :
  let w := Demo.blank Demo.steady 0 in
  let inp := Demo.idle (Some Demo.corrupt) in
  (extension (name Demo.corrupt) = Some "png" ∧
   accept ["jpg"; "jpeg"; "png"] (selected inp) = Some Demo.corrupt ∧
   (upload_section Demo.steady inp w).1 = Raise UnidentifiedImageError ∧
   new_events w (upload_section Demo.steady inp w).2 =
     [EvFileUploader "Choose an image..." ["jpg"; "jpeg"; "png"]] ∧
   (main Demo.steady inp w).1 = Raise UnidentifiedImageError ∧
   new_events w (main Demo.steady inp w).2 =
     header ++
     [EvFileUploader "Choose an image..." ["jpg"; "jpeg"; "png"]]) ∧
  (extension (name Demo.capitals) = Some "PNG" ∧
   ("PNG" ∉ ["jpg"; "jpeg"; "png"]) ∧
   new_events w
     (upload_section Demo.steady (Demo.idle (Some Demo.capitals)) w).2 =
     [EvFileUploader "Choose an image..." ["jpg"; "jpeg"; "png"];
      EvImage (ImgUpload Demo.capitals) (Some "Uploaded Image");
      EvButton "Analyze and Find Products"]).
Proof.
  intros w inp. subst w inp. split.
  - repeat split; vm_compute; reflexivity.
  - split; [vm_compute; reflexivity|]. split; [|vm_compute; reflexivity].
    intros Hin. apply (bool_decide_pack _) in Hin.
    vm_compute in Hin. exact Hin.
Qed.

Lemma transcript_rendered_witness :
  let w := Demo.chatting Demo.steady 0 in
  let l := [Demo.message "user" "Where can I buy this lamp?";
            Demo.pictured] in
  display_chat_history Demo.steady w = (Ret tt, extend (transcript l) w) ∧
  transcript l =
    [EvChatOpen (AStr "user"); EvWrite (AStr "Where can I buy this lamp?");
     EvChatClose;
     EvChatOpen (AStr "assistant"); EvWrite (AStr "Found 3 matching items");
     EvImage (ImgPath (AStr "uploads/lamp.png")) None; EvChatClose].
Proof.
  intros w l.
  assert (session_state w !! "messages" = Some (VList l)) as Hmessages.
  { vm_compute. reflexivity. }
  assert (Forall (well_formed Demo.steady (ext w)) l) as Hl.
  { drawable. }
  destruct (transcript_rendered Demo.steady w l Hmessages Hl)
    as (Hshown & _ & _).
  split; [exact Hshown|]. vm_compute. reflexivity.
Defined.

Lemma failed_init_leaves_chat_unset_witness :
  let inp := Demo.press "Analyze and Find Products" (Some Demo.photo) in
  let w := Demo.blank Demo.failing_init 0 in
  session_state (main Demo.failing_init inp w).2 !! "chat" = Some VNone.
Proof.
  intros inp w.
  assert (init_keeps_session Demo.failing_init) as Hkeep.
  { intros e s. reflexivity. }
  assert (EvInitDone (Raise (CollaboratorError "no credentials"))
            ∈ new_events w (main Demo.failing_init inp w).2) as Hraised.
  { logged. }
  destruct (failed_init_leaves_chat_unset Demo.failing_init inp w _
              Hkeep Hraised) as (_ & _ & Hchat & _).
  exact Hchat.
Defined.

(** * The further properties on concrete sessions *)

(** Lines 17-20 on a session in the middle of a conversation, and on one
    that has just begun. *)
Lemma init_session_state_keeps_entries_witness :
  session_state
    (init_session_state Demo.steady (Demo.chatting Demo.steady 0)).2
    !! "chat" = Some (VHandle 1) ∧
  session_state
    (init_session_state Demo.steady (Demo.blank Demo.steady 0)).2
    !! "messages" = Some (VList []).
Proof.
  split.
  - apply (proj1 (proj2 (init_session_state_keeps_entries Demo.steady
                           (Demo.chatting Demo.steady 0)))).
    vm_compute. reflexivity.
  - apply (proj1 (proj2 (proj2 (proj2
             (init_session_state_keeps_entries Demo.steady
                (Demo.blank Demo.steady 0)))))).
    vm_compute. reflexivity.
Defined.

(** The second message of the session has no content. *)
Lemma transcript_stops_at_broken_message_witness :
  let w := Demo.broken Demo.steady 0 in
  (display_chat_history Demo.steady w).1 = Raise (KeyError "content") ∧
  new_events w (display_chat_history Demo.steady w).2 =
    transcript [Demo.message "user" "Where can I buy this lamp?"] ++
    [EvChatOpen (AStr "assistant"); EvChatClose].
Proof.
  intros w.
  assert (session_state w !! "messages" =
            Some (VList ([Demo.message "user" "Where can I buy this lamp?"]
                         ++ <["role" := AStr "assistant"]> ∅
                         :: [Demo.pictured]))) as Hmessages.
  { vm_compute. reflexivity. }
  assert (Forall (well_formed Demo.steady (ext w))
            [Demo.message "user" "Where can I buy this lamp?"]) as Hbefore.
  { drawable. }
  assert (draw_error Demo.steady (ext w) (<["role" := AStr "assistant"]> ∅)
          = Some (KeyError "content")) as Hbroken.
  { vm_compute. reflexivity. }
  destruct (transcript_stops_at_broken_message Demo.steady w _ _ _ _
              Hmessages Hbefore Hbroken)
    as (Hout & _ & _ & _ & Hcontent & _).
  split; [exact Hout|].
  apply (Hcontent "assistant"); vm_compute; reflexivity.
Defined.

(** The reset button is pressed on a session whose second message
    points to an image file that is gone: [st.image] raises, and nothing
    is cleared. *)
Lemma broken_message_stops_page_witness :
  let inp := Demo.press "Start Over" None in
  let w := Demo.stale Demo.steady 0 in
  (∃ l1 m l2,
     session_state w !! "messages" = Some (VList (l1 ++ m :: l2)) ∧
     draw_error Demo.steady (ext w) m = Some MediaFileStorageError ∧
     (main Demo.steady inp w).1 = Raise MediaFileStorageError) ∧
  session_state (main Demo.steady inp w).2 = with_defaults (session_state w).
Proof.
  intros inp w.
  pose (gone := <["image_path" := AStr "uploads/gone.png"]>
                  (Demo.message "assistant" "Found 3 matching items")).
  assert (session_state w !! "messages" =
            Some (VList [Demo.message "user" "Where can I buy this lamp?";
                         gone])) as Hmessages.
  { vm_compute. reflexivity. }
  assert (Exists (λ m, is_Some (draw_error Demo.steady (ext w) m))
            [Demo.message "user" "Where can I buy this lamp?"; gone])
    as Hbroken.
  { apply Exists_cons_tl, Exists_cons_hd.
    exists MediaFileStorageError. vm_compute. reflexivity. }
  destruct (broken_message_stops_page Demo.steady inp w _ Hmessages Hbroken)
    as ((l1 & m & l2 & x & Hl & _ & Hm & Hout) & Hstate & _).
  split; [|exact Hstate].
  assert (x = MediaFileStorageError) as ->.
  { assert ((main Demo.steady inp w).1 = Raise MediaFileStorageError)
      as Hrun by (vm_compute; reflexivity).
    rewrite Hrun in Hout. by injection Hout as <-. }
  exists l1, m, l2. rewrite Hmessages, Hl. done.
Defined.

(** The analysis fails, the reset button is not reached. *)
Lemma reset_button_needs_clean_run_witness :
  let inp := Demo.press "Analyze and Find Products" (Some Demo.photo) in
  let w := Demo.blank Demo.failing_init 0 in
  main Demo.failing_init inp w = before_reset Demo.failing_init inp w.
Proof.
  intros inp w.
  apply (proj2 (reset_button_needs_clean_run Demo.failing_init inp w)
           (CollaboratorError "no credentials")).
  vm_compute. reflexivity.
Defined.

(** A photo is in the widget and nothing is pressed. *)
Lemma quiet_run_only_draws_witness :
  let inp := Demo.idle (Some Demo.photo) in
  let w := Demo.chatting Demo.steady 0 in
  session_state (main Demo.steady inp w).2 = with_defaults (session_state w) ∧
  ext (main Demo.steady inp w).2 = ext w.
Proof.
  intros inp w.
  assert (clicked inp "Start Over" = false) as Hno.
  { reflexivity. }
  assert (selected inp = None ∨
          clicked inp "Analyze and Find Products" = false) as Hquiet.
  { right. reflexivity. }
  destruct (quiet_run_only_draws Demo.steady inp w Hno Hquiet)
    as (Hstate & Hext & _).
  split; [exact Hstate | exact Hext].
Defined.

(** A file that is not an image is in the widget: the exception is
    the one [st.image] raised on it. *)
Lemma main_raises_only_witness :
  let inp := Demo.idle (Some Demo.corrupt) in
  let w := Demo.chatting Demo.steady 0 in
  let x := UnidentifiedImageError in
  let w' := (main Demo.steady inp w).2 in
  let messages := with_defaults (session_state w) !! "messages" in
  (x = RerunException ∧ clicked inp "Start Over" = true ∧
   session_state w' = ∅) ∨
  (((x = TypeError ∧ ∀ l, messages ≠ Some (VList l)) ∨
    (∃ l m, messages = Some (VList l) ∧ m ∈ l ∧
            draw_error Demo.steady (ext w) m = Some x)) ∧
   ∀ ev, ev ∈ new_events w w' → ¬ widget_event ev ∧ ¬ analyze_event ev) ∨
  ((∃ f, accept ["jpg"; "jpeg"; "png"] (selected inp) = Some f ∧
         image_error Demo.steady (ext w) (ImgUpload f) = Some x) ∧
   ∀ ev, ev ∈ new_events w w' →
         (∀ label, ev ≠ EvButton label) ∧ ¬ analyze_event ev) ∨
  EvInitDone (Raise x) ∈ new_events w w' ∨
  EvProcessDone (Raise x) ∈ new_events w w'.
Proof.
  intros inp w x w'.
  apply (main_raises_only Demo.steady inp w x).
  vm_compute. reflexivity.
Defined.

(** The first analysis after a reset. *)
Lemma missing_chat_is_initialized_witness :
  let w := (main Demo.steady (Demo.press "Start Over" None)
              (Demo.chatting Demo.steady 0)).2 in
  let inp := Demo.press "Analyze and Find Products" (Some Demo.photo) in
  EvInitCall ∈ new_events w (main Demo.steady inp w).2.
Proof.
  intros w inp.
  assert (session_state w !! "chat" = None ∨
          session_state w !! "chat" = Some VNone) as Hnone.
  { left. vm_compute. reflexivity. }
  assert (EvSpinnerShow "Processing image..."
            ∈ new_events w (main Demo.steady inp w).2) as Hshown.
  { logged. }
  destruct (missing_chat_is_initialized Demo.steady inp w _ Hnone Hshown)
    as [Hcalled _].
  exact Hcalled.
Defined.

Lemma failing_init_keeps_messages : keeps_messages Demo.failing_init.
Proof. split; intros; reflexivity. Qed.

(** An analysis that fails, then a run with nothing pressed. *)
Lemma page_never_writes_messages_witness :
  let inps := [Demo.press "Analyze and Find Products" (Some Demo.photo);
               Demo.idle (Some Demo.photo)] in
  let w := Demo.chatting Demo.failing_init 0 in
  session_state (session Demo.failing_init inps w) !! "messages" =
    with_defaults (session_state w) !! "messages".
Proof.
  intros inps w.
  apply (page_never_writes_messages Demo.failing_init).
  - exact failing_init_keeps_messages.
  - repeat constructor.
Defined.

(** Two analyses whose pipeline raises. *)
Lemma spinner_never_left_on_witness :
  let inps := [Demo.press "Analyze and Find Products" (Some Demo.photo);
               Demo.press "Analyze and Find Products" (Some Demo.photo)] in
  spinner (session Demo.failing_process inps
             (Demo.blank Demo.failing_process 0)) = None.
Proof.
  intros inps.
  apply (spinner_never_left_on Demo.failing_process).
  reflexivity.
Defined.
